(** * ishortn.ink: the edge middleware and the database accessor

    A shallow embedding of [src/middleware.ts] (the request-interception and
    redirect-resolution pipeline) and of [src/server/db/index.ts] (the lazily
    created connection pool and database client), with the properties the
    specification states about them.

    Conventions.
    - A JavaScript string is a [string] holding its UTF-8 bytes, so every
      ASCII operation of the source ([startsWith], [split], [includes], ...)
      reads the same bytes the source reads, and [encodeURI] escapes a
      non-ASCII character byte by byte, as the platform does.
    - A value of type [string | null | undefined] is an [option string]: the
      source tells [null] from [undefined] on such a value only where it
      prints one, and the two it prints, [ip] and the continent, are
      [undefined] when absent.
    - Code that the middleware imports from outside [src/] ([isBot],
      [getCountryContinentCode]), from Clerk ([createRouteMatcher]) or from
      the runtime ([new URL], [process.env]) is a [Variable] of the section
      that embeds the middleware; a model of the runtime's URL parser is
      given separately in [Module WHATWG] for the concrete requests. *)

From Stdlib Require Import ZArith NArith Ascii Bool Lia.
From Stdlib Require String.
From stdpp Require Import base option list gmap strings.

Local Open Scope stdpp_scope.

(** ** JavaScript strings *)

Module JS.

(** [s.startsWith(p)] *)
Definition startsWith (s p : string) : bool := String.prefix p s.

(** [s.endsWith(p)]: some suffix of [s] is [p]. *)
Fixpoint endsWith (s p : string) : bool :=
  String.eqb s p ||
  match s with
  | EmptyString => false
  | String _ s' => endsWith s' p
  end.

(** [s.includes(p)]: [p] starts at some position of [s]. *)
Fixpoint includes (s p : string) : bool :=
  String.prefix p s ||
  match s with
  | EmptyString => false
  | String _ s' => includes s' p
  end.

(** [s.split(sep)] for a separator of one character, the only use the
    source makes of it ([","] and ["/"]); the empty string splits into one
    empty piece. *)
Fixpoint split (sep : ascii) (s : string) : list string :=
  match s with
  | EmptyString => [EmptyString]
  | String c s' =>
      if Ascii.eqb c sep then EmptyString :: split sep s'
      else match split sep s' with
           | [] => [String c EmptyString]
           | piece :: pieces => String c piece :: pieces
           end
  end.

Definition byte (n : nat) : ascii := ascii_of_nat n.

(** The length in bytes of the white space or line terminator [s] starts
    with, 0 when it starts with none: TAB, LF, VT, FF, CR, SP, and in UTF-8
    U+00A0, U+1680, U+2000..U+200A, U+2028, U+2029, U+202F, U+205F, U+3000
    and U+FEFF. *)
Definition white_space_length (s : string) : nat :=
  match s with
  | String a rest =>
      let a := nat_of_ascii a in
      if ((9 <=? a) && (a <=? 13)) || (a =? 32) then 1
      else match rest with
           | String b rest' =>
               let b := nat_of_ascii b in
               if (a =? 194) && (b =? 160) then 2
               else match rest' with
                    | String c _ =>
                        let c := nat_of_ascii c in
                        if (a =? 225) && (b =? 154) && (c =? 128) then 3
                        else if (a =? 226) && (b =? 128) &&
                                (((128 <=? c) && (c <=? 138)) || (c =? 168) ||
                                 (c =? 169) || (c =? 175)) then 3
                        else if (a =? 226) && (b =? 129) && (c =? 159) then 3
                        else if (a =? 227) && (b =? 128) && (c =? 128) then 3
                        else if (a =? 239) && (b =? 187) && (c =? 191) then 3
                        else 0
                    | EmptyString => 0
                    end
           | EmptyString => 0
           end
  | EmptyString => 0
  end.

Fixpoint drop (n : nat) (s : string) : string :=
  match n, s with
  | S n', String _ s' => drop n' s'
  | _, _ => s
  end.

(** [s.trimStart()], the loop bounded by the length of [s]. *)
Fixpoint trimStart_upto (fuel : nat) (s : string) : string :=
  match fuel with
  | O => s
  | S fuel' =>
      match white_space_length s with
      | O => s
      | n => trimStart_upto fuel' (drop n s)
      end
  end.

Definition trimStart (s : string) : string :=
  trimStart_upto (String.length s) s.

(** [s.trimEnd()]: cut where only white space follows. *)
Fixpoint trimEnd (s : string) : string :=
  match trimStart s, s with
  | EmptyString, _ => EmptyString
  | _, String c s' => String c (trimEnd s')
  | _, EmptyString => EmptyString
  end.

(** [s.trim()] *)
Definition trim (s : string) : string := trimEnd (trimStart s).

(** ToBoolean of a [string | null | undefined]. *)
Definition truthy (v : option string) : bool :=
  match v with
  | Some (String _ _) => true
  | _ => false
  end.

(** [a || b] between two values of type [string | null | undefined]. *)
Definition or (a b : option string) : option string :=
  if truthy a then a else b.

(** [a || d] where [d] is a string: the result is a string. *)
Definition or_string (a : option string) (d : string) : string :=
  match a with
  | Some (String c s) => String c s
  | _ => d
  end.

(** [a ?? d] *)
Definition nullish (a : option string) (d : string) : string :=
  match a with
  | Some s => s
  | None => d
  end.

(** What a template literal prints for a [string | undefined]. *)
Definition template (v : option string) : string :=
  match v with
  | Some s => s
  | None => "undefined"
  end.

Definition hex_digit (n : nat) : ascii :=
  if n <? 10 then byte (48 + n) else byte (55 + n).

(** [%XX] for one byte, upper-case as the platform writes it. *)
Definition percent (c : ascii) : string :=
  let n := nat_of_ascii c in
  String "%" (String (hex_digit (n / 16)) (String (hex_digit (n mod 16)) EmptyString)).

Definition is_alpha (c : ascii) : bool :=
  let n := nat_of_ascii c in
  ((65 <=? n) && (n <=? 90)) || ((97 <=? n) && (n <=? 122)).

Definition is_digit (c : ascii) : bool :=
  let n := nat_of_ascii c in (48 <=? n) && (n <=? 57).

Definition one_of (set : string) (c : ascii) : bool :=
  JS.includes set (String c EmptyString).

(** The characters [encodeURIComponent] leaves alone. *)
Definition uriUnescaped (c : ascii) : bool :=
  is_alpha c || is_digit c || one_of "-_.!~*'()" c.

(** The further characters [encodeURI] leaves alone. *)
Definition uriReserved (c : ascii) : bool := one_of ";/?:@&=+$," c.

Fixpoint encode (keep : ascii -> bool) (s : string) : string :=
  match s with
  | EmptyString => EmptyString
  | String c s' =>
      (if keep c then String c EmptyString else percent c) +:+ encode keep s'
  end.

Definition encodeURI : string -> string :=
  encode (fun c => uriUnescaped c || uriReserved c || Ascii.eqb c "#").

Definition encodeURIComponent : string -> string := encode uriUnescaped.

End JS.

(** ** The runtime's objects *)

(** What the source reads of a [URL] object. *)
Record URL := {
  href : string;       (* also [toString()] *)
  origin : string;
  protocol : string;
  host : string;
  pathname : string;
  search : string;
  hash : string
}.

(** A [NextRequest]: [request.url], the search parameters of
    [request.nextUrl] in the order of the query string, and the headers,
    keyed by lower-case name as [Headers.get] looks them up, each with the
    one combined value [Headers.get] returns. *)
Record NextRequest := {
  url : string;
  searchParams : list (string * string);
  headers : gmap string string
}.

(** [request.headers.get(name)] *)
Definition headers_get (request : NextRequest) (name : string) : option string :=
  headers request !! name.

(** [request.nextUrl.searchParams.get(name)]: the first value of that name. *)
Fixpoint searchParams_get (params : list (string * string)) (name : string)
  : option string :=
  match params with
  | [] => None
  | (k, v) :: rest => if String.eqb k name then Some v else searchParams_get rest name
  end.

(** A parsed JSON body. The source observes a number only through ToBoolean
    and ToString, so a number is kept as those two readings: whether it is
    zero, and its text. *)
#[warnings="-register-all"]
Inductive JSON :=
| JNull
| JBool (b : bool)
| JNumber (zero : bool) (text : string)
| JString (s : string)
| JArray (items : list JSON)
| JObject (members : list (string * JSON)).

Inductive Error := TypeError | SyntaxError.

Inductive Completion (A : Type) :=
| Normal (a : A)
| Throw (e : Error).
Arguments Normal {A} a.
Arguments Throw {A} e.

(** The own property [key] of an object built by [JSON.parse]: of two
    members of one name the later stands. *)
Fixpoint member (key : string) (members : list (string * JSON)) : option JSON :=
  match members with
  | [] => None
  | (k, v) :: rest =>
      match member key rest with
      | Some later => Some later
      | None => if String.eqb k key then Some v else None
      end
  end.

(** [data.key] for the keys the source reads, [url] and [cloaking], which no
    prototype defines: reading a property of [null] throws, an object gives
    its own member, every other value gives [undefined]. *)
Definition Get (data : JSON) (key : string) : Completion (option JSON) :=
  match data with
  | JNull => Throw TypeError
  | JObject members => Normal (member key members)
  | _ => Normal None
  end.

Definition ToBoolean (v : option JSON) : bool :=
  match v with
  | None | Some JNull => false
  | Some (JBool b) => b
  | Some (JNumber zero _) => negb zero
  | Some (JString s) => negb (String.eqb s "")
  | Some (JArray _) | Some (JObject _) => true
  end.

Definition join (sep : string) (pieces : list string) : string :=
  match pieces with
  | [] => ""
  | p :: ps => fold_left (fun acc q => acc +:+ sep +:+ q) ps p
  end.

(** ToString of a parsed JSON value, as [new URL] and a template literal
    apply it. An object prints through [Object.prototype.toString]. An
    object with a member of its own named [toString] is outside this
    model: the member is not callable, and there the conversion throws a
    [TypeError]. *)
Fixpoint ToString_json (v : JSON) : string :=
  match v with
  | JNull => "null"
  | JBool true => "true"
  | JBool false => "false"
  | JNumber _ text => text
  | JString s => s
  | JArray items =>
      join "," (map (fun item => match item with JNull => "" | _ => ToString_json item end) items)
  | JObject _ => "[object Object]"
  end.

(** ToString of a property that may be [undefined]. *)
Definition ToString (v : option JSON) : string :=
  match v with
  | None => "undefined"
  | Some j => ToString_json j
  end.

(** A [Response]: its status, and the value [response.json()] resolves to,
    [None] when the body is not JSON and the promise rejects. *)
Record Response := {
  status : nat;
  json : option JSON
}.

Definition ok (response : Response) : bool :=
  (200 <=? status response) && (status response <=? 299).

(** How the awaited [fetch] settles: rejected (the network failed) or
    resolved with a response. *)
Inductive FetchResult :=
| fetch_rejected
| fetch_resolved (response : Response).

Inductive NextResponse :=
| NextResponse_next
| NextResponse_redirect (location : string)
| NextResponse_rewrite (destination : URL).

(** How a call of the middleware ends: what it wrote with [console.error],
    and the value it returned ([None] for [undefined]) or the error it
    threw. *)
Record Outcome := {
  console_error : list string;
  completion : Completion (option NextResponse)
}.

Definition returns (r : NextResponse) : Outcome :=
  {| console_error := []; completion := Normal (Some r) |}.
Definition throws (e : Error) : Outcome :=
  {| console_error := []; completion := Throw e |}.
Definition logging (message : string) (o : Outcome) : Outcome :=
  {| console_error := message :: console_error o; completion := completion o |}.

(** A run of the middleware up to its one suspension point: it either ends
    without calling the resolver, or it issues the [fetch] and goes on from
    how that settles. *)
Inductive Run :=
| Ended (o : Outcome)
| Fetch (input : string) (init_headers : list (string * string))
        (resume : FetchResult -> Outcome).

(** The decision of the specification: a returned [undefined] and
    [NextResponse.next()] both let the request through. *)
Inductive RedirectDecision :=
| Continue
| Redirect (targetUrl : string)
| Rewrite (cloak : URL).

Definition decision_of (returned : option NextResponse) : RedirectDecision :=
  match returned with
  | None | Some NextResponse_next => Continue
  | Some (NextResponse_redirect location) => Redirect location
  | Some (NextResponse_rewrite destination) => Rewrite destination
  end.

(** The decision an outcome carries, none when an error was thrown. *)
Definition decision (o : Outcome) : option RedirectDecision :=
  match completion o with
  | Normal returned => Some (decision_of returned)
  | Throw _ => None
  end.

(** ** [src/middleware.ts] *)

(** [getIpAddress]: the first entry of [x-forwarded-for], else [x-real-ip],
    else [cf-connecting-ip], else [undefined]. *)
Definition getIpAddress (request : NextRequest) : option string :=
  let forwardedFor := headers_get request "x-forwarded-for" in
  if JS.truthy forwardedFor then
    match JS.split "," (JS.nullish forwardedFor "") with
    | first :: _ => Some (JS.trim first)
    | [] => None
    end
  else
    let realIp := headers_get request "x-real-ip" in
    if JS.truthy realIp then realIp
    else
      let cfConnectingIp := headers_get request "cf-connecting-ip" in
      if JS.truthy cfConnectingIp then cfConnectingIp
      else None.

Record Geolocation := {
  country : option string;
  city : option string
}.

(** [getGeolocation]: per field, the first non-empty header of Cloudflare's,
    CloudFront's and the generic one. *)
Definition getGeolocation (request : NextRequest) : Geolocation :=
  let cfCountry := headers_get request "cf-ipcountry" in
  let cfCity := headers_get request "cf-ipcity" in
  let awsCountry := headers_get request "cloudfront-viewer-country" in
  let awsCity := headers_get request "cloudfront-viewer-city" in
  let geoCountry := headers_get request "x-geo-country" in
  let geoCity := headers_get request "x-geo-city" in
  {| country := JS.or (JS.or (JS.or cfCountry awsCountry) geoCountry) None;
     city := JS.or (JS.or (JS.or cfCity awsCity) geoCity) None |}.

(** The client context of lines 90 to 96, as the resolver call prints it. *)
Record ClientContext := {
  ctx_ip : option string;
  ctx_country : string;
  ctx_city : string;
  ctx_continent : option string
}.

Section Middleware.

(** [new URL(input, base)] of the runtime, [None] when it throws. *)
Variable new_URL : string -> option string -> option URL.
(** Clerk's [createRouteMatcher]. *)
Variable createRouteMatcher : list string -> NextRequest -> bool.
(** [isBot] of [@/lib/utils/is-bot], not under [src/]. *)
Variable isBot : string -> bool.
(** [getCountryContinentCode] of [@/lib/countries], not under [src/]: the
    entry of a country in its table, a string or [undefined]. *)
Variable getCountryContinentCode : string -> option string.
(** [process.env.NODE_ENV] *)
Variable NODE_ENV : option string.

Definition isProtectedRoute : NextRequest -> bool :=
  createRouteMatcher ["/dashboard(.*)"].

(** Lines 65 to 73. *)
Definition shouldSkip (pathname : string) : bool :=
  String.eqb pathname "/" ||
  JS.startsWith pathname "/api/" ||
  JS.startsWith pathname "/dashboard" ||
  JS.startsWith pathname "/_next/" ||
  JS.startsWith pathname "/cloaked/" ||
  JS.endsWith pathname ".png" ||
  JS.endsWith pathname ".ico" ||
  (2 <? length (JS.split "/" pathname)).

(** Lines 86 to 96: the derived context, for the host of the request. *)
Definition clientContext (request : NextRequest) (host : string) : ClientContext :=
  let geo := getGeolocation request in
  let ip := getIpAddress request in
  let isLocalhost := JS.includes host "localhost" || JS.includes host "127.0.0.1" in
  let simCountry := searchParams_get (searchParams request) "geo" in
  let country :=
    JS.or_string (JS.or simCountry (country geo))
                 (if isLocalhost then "US" else "Unknown") in
  let city :=
    JS.or_string (city geo) (if isLocalhost then "San Francisco" else "Unknown") in
  let continent :=
    if negb (String.eqb country "") && negb (String.eqb country "Unknown")
    then getCountryContinentCode country
    else Some (if isLocalhost then "NA" else "Unknown") in
  {| ctx_ip := ip; ctx_country := country; ctx_city := city;
     ctx_continent := continent |}.

(** Lines 99 to 106: the address of the resolver call. *)
Definition resolverUrl (origin host pathname : string) (ctx : ClientContext) : string :=
  let internalOrigin :=
    match NODE_ENV with
    | Some "production" => "http://localhost:3000"
    | _ => origin
    end in
  JS.encodeURI
    (internalOrigin +:+ "/api/link?domain=" +:+ host +:+ "&alias=" +:+ pathname +:+
     "&country=" +:+ ctx_country ctx +:+ "&city=" +:+ ctx_city ctx +:+
     "&continent=" +:+ JS.template (ctx_continent ctx) +:+
     "&ip=" +:+ JS.template (ctx_ip ctx)).

(** Lines 126 to 149: the validated redirect address, or the early
    [NextResponse.next()] with what was logged on the way. *)
Definition validate (request : NextRequest) (data_url : option JSON) : Outcome + string :=
  match new_URL (ToString data_url) (Some (url request)) with
  | Some parsedUrl =>
      if negb (String.eqb (protocol parsedUrl) "http:") &&
         negb (String.eqb (protocol parsedUrl) "https:")
      then inl (logging ("Blocked redirect to unsafe protocol: " +:+ protocol parsedUrl)
                        (returns NextResponse_next))
      else inr (href parsedUrl)
  | None =>
      match new_URL ("https://" +:+ ToString data_url) None with
      | Some fallbackUrl =>
          if negb (String.eqb (protocol fallbackUrl) "https:")
          then inl (returns NextResponse_next)
          else inr (href fallbackUrl)
      | None =>
          inl (logging ("Invalid redirect URL: " +:+ ToString data_url)
                       (returns NextResponse_next))
      end
  end.

(** Lines 115 to 158: from the settled [fetch] to the response. *)
Definition dispatch (request : NextRequest) (settled : FetchResult) : Outcome :=
  match settled with
  | fetch_rejected => throws TypeError
  | fetch_resolved response =>
      if negb (ok response) then returns NextResponse_next
      else
        match json response with
        | None => throws SyntaxError
        | Some data =>
            match Get data "url" with
            | Throw e => throws e
            | Normal data_url =>
                if negb (ToBoolean data_url) then returns NextResponse_next
                else
                  match validate request data_url with
                  | inl early => early
                  | inr redirectUrl =>
                      match Get data "cloaking" with
                      | Throw e => throws e
                      | Normal cloaking =>
                          if ToBoolean cloaking then
                            let encodedUrl := JS.encodeURIComponent redirectUrl in
                            match new_URL ("/cloaked/" +:+ encodedUrl) (Some (url request)) with
                            | Some destination => returns (NextResponse_rewrite destination)
                            | None => throws TypeError
                            end
                          else returns (NextResponse_redirect redirectUrl)
                      end
                  end
            end
        end
  end.

(** [resolveLinkAndLogAnalytics], lines 58 to 159. *)
Definition resolveLinkAndLogAnalytics (request : NextRequest) : Run :=
  if isProtectedRoute request then
    Ended {| console_error := []; completion := Normal None |}
  else
    match new_URL (url request) None with
    | None => Ended (throws TypeError)
    | Some u =>
        let pathname := pathname u in
        let host := host u in
        let origin := origin u in
        if shouldSkip pathname then Ended (returns NextResponse_next)
        else
          let userAgent := headers_get request "user-agent" in
          if JS.truthy userAgent && isBot (JS.nullish userAgent "") then
            Ended (returns NextResponse_next)
          else
            let referer := headers_get request "referer" in
            let ctx := clientContext request host in
            Fetch (resolverUrl origin host pathname ctx)
                  [("user-agent", JS.nullish userAgent ""); ("referer", JS.nullish referer "")]
                  (dispatch request)
    end.

End Middleware.

(** ** The runtime's URL parser

    A model of the URL Standard's basic parser, host parser and serialiser,
    which is what [new URL(input, base)] runs. It is not code of the
    repository: the middleware above takes [new_URL] as a variable, and this
    model supplies it where a concrete request is evaluated. The one part
    left to a variable is Unicode's domain-to-ASCII (its mapping tables
    decide hosts that are not plain ASCII, or that carry an [xn--] label). *)

Module WHATWG.

Definition code (c : ascii) : nat := nat_of_ascii c.

Definition ch (c d : ascii) : bool := Ascii.eqb c d.

Definition quote : ascii := JS.byte 34.

Definition is_hex (c : ascii) : bool :=
  JS.is_digit c ||
  ((65 <=? code c) && (code c <=? 70)) || ((97 <=? code c) && (code c <=? 102)).

Definition hex_value (c : ascii) : nat :=
  if JS.is_digit c then code c - 48
  else if code c <? 97 then code c - 55 else code c - 87.

Definition lower (c : ascii) : ascii :=
  if (65 <=? code c) && (code c <=? 90) then JS.byte (code c + 32) else c.

Fixpoint lowercase (s : string) : string :=
  match s with
  | EmptyString => EmptyString
  | String c s' => String (lower c) (lowercase s')
  end.

Fixpoint all_chars (p : ascii -> bool) (s : string) : bool :=
  match s with
  | EmptyString => true
  | String c s' => p c && all_chars p s'
  end.

Definition any_char (p : ascii -> bool) (s : string) : bool :=
  negb (all_chars (fun c => negb (p c)) s).

(** The longest prefix of [s] whose characters satisfy [p], and the rest. *)
Fixpoint span (p : ascii -> bool) (s : string) : string * string :=
  match s with
  | EmptyString => (EmptyString, EmptyString)
  | String c s' =>
      if p c then let (a, b) := span p s' in (String c a, b)
      else (EmptyString, s)
  end.

(** *** Percent-encode sets *)

Definition C0_control_set (c : ascii) : bool := (code c <? 32) || (126 <? code c).
Definition fragment_set (c : ascii) : bool :=
  C0_control_set c || ch c quote || JS.one_of " <>`" c.
Definition query_set (c : ascii) : bool :=
  C0_control_set c || ch c quote || JS.one_of " #<>" c.
Definition special_query_set (c : ascii) : bool := query_set c || ch c "'".
Definition path_set (c : ascii) : bool := query_set c || JS.one_of "?^`{}" c.
Definition userinfo_set (c : ascii) : bool := path_set c || JS.one_of "/:;=@[\]|" c.

Definition percent_encode (set : ascii -> bool) (s : string) : string :=
  JS.encode (fun c => negb (set c)) s.

Fixpoint percent_decode (s : string) : string :=
  match s with
  | EmptyString => EmptyString
  | String c s' =>
      match s' with
      | String a (String b rest) =>
          if ch c "%" && is_hex a && is_hex b
          then String (JS.byte (16 * hex_value a + hex_value b)) (percent_decode rest)
          else String c (percent_decode s')
      | _ => String c (percent_decode s')
      end
  end.

(** *** URL records *)

Inductive url_path :=
| opaque_path (s : string)
| path_segments (segments : list string).

Record url := {
  url_scheme : string;
  url_username : string;
  url_password : string;
  url_host : option string;     (* serialised; [None] is the null host *)
  url_port : option N;
  url_path_of : url_path;
  url_query : option string;
  url_fragment : option string
}.

Definition default_port (scheme : string) : option (option N) :=
  if String.eqb scheme "ftp" then Some (Some 21%N)
  else if String.eqb scheme "file" then Some None
  else if String.eqb scheme "http" then Some (Some 80%N)
  else if String.eqb scheme "https" then Some (Some 443%N)
  else if String.eqb scheme "ws" then Some (Some 80%N)
  else if String.eqb scheme "wss" then Some (Some 443%N)
  else None.

Definition is_special_scheme (scheme : string) : bool :=
  match default_port scheme with Some _ => true | None => false end.

Definition is_special (u : url) : bool := is_special_scheme (url_scheme u).

Definition segments_of (u : url) : list string :=
  match url_path_of u with
  | path_segments l => l
  | opaque_path _ => []
  end.

Definition has_opaque_path (u : url) : bool :=
  match url_path_of u with opaque_path _ => true | path_segments _ => false end.

Definition set_path (u : url) (p : url_path) : url :=
  {| url_scheme := url_scheme u; url_username := url_username u;
     url_password := url_password u; url_host := url_host u; url_port := url_port u;
     url_path_of := p; url_query := url_query u; url_fragment := url_fragment u |}.

Definition set_query (u : url) (q : option string) : url :=
  {| url_scheme := url_scheme u; url_username := url_username u;
     url_password := url_password u; url_host := url_host u; url_port := url_port u;
     url_path_of := url_path_of u; url_query := q; url_fragment := url_fragment u |}.

Definition set_fragment (u : url) (f : option string) : url :=
  {| url_scheme := url_scheme u; url_username := url_username u;
     url_password := url_password u; url_host := url_host u; url_port := url_port u;
     url_path_of := url_path_of u; url_query := url_query u; url_fragment := f |}.

Definition set_authority (u : url) (user pass : string) (h : option string)
           (p : option N) : url :=
  {| url_scheme := url_scheme u; url_username := user; url_password := pass;
     url_host := h; url_port := p; url_path_of := url_path_of u;
     url_query := url_query u; url_fragment := url_fragment u |}.

Definition set_host (u : url) (h : option string) : url :=
  set_authority u (url_username u) (url_password u) h (url_port u).

Definition set_port (u : url) (p : option N) : url :=
  set_authority u (url_username u) (url_password u) (url_host u) p.

(** A URL of the given scheme and nothing else. *)
Definition blank (scheme : string) : url :=
  {| url_scheme := scheme; url_username := ""; url_password := ""; url_host := None;
     url_port := None; url_path_of := path_segments []; url_query := None;
     url_fragment := None |}.

(** *** Numbers in text *)

(** The value of a numeral in the given radix, [None] on a foreign digit. *)
Fixpoint number_in (radix : N) (acc : N) (s : string) : option N :=
  match s with
  | EmptyString => Some acc
  | String c s' =>
      if is_hex c && (N.of_nat (hex_value c) <? radix)%N
      then number_in radix (radix * acc + N.of_nat (hex_value c))%N s'
      else None
  end.

Definition digit_of (n : N) : string :=
  let n := N.to_nat n in
  String (if n <? 10 then JS.byte (48 + n) else JS.byte (87 + n)) EmptyString.

(** The digits of [n] in the given radix, the loop bounded by [fuel]. *)
Fixpoint numeral_upto (fuel : nat) (radix n : N) : string :=
  match fuel with
  | O => ""
  | S fuel' =>
      if (n <? radix)%N then digit_of n
      else numeral_upto fuel' radix (n / radix)%N +:+ digit_of (n mod radix)%N
  end.

(** A number has no more digits than bits. *)
Definition decimal (n : N) : string := numeral_upto (S (N.size_nat n)) 10 n.
Definition hex_lower (n : N) : string := numeral_upto (S (N.size_nat n)) 16 n.

(** *** Hosts *)

(** The IPv4 number parser: hexadecimal after [0x], octal after [0]. *)
Definition ipv4_number (s : string) : option N :=
  match s with
  | EmptyString => None
  | String a (String b rest) =>
      if ch a "0" && (ch b "x" || ch b "X") then number_in 16 0 rest
      else if ch a "0" then number_in 8 0 (String b rest)
      else number_in 10 0 s
  | _ => number_in 10 0 s
  end.

Definition ends_in_a_number (s : string) : bool :=
  let parts := JS.split "." s in
  match reverse parts with
  | [] => false
  | last_part :: before =>
      let candidate :=
        if String.eqb last_part "" then
          match before with
          | [] => None
          | previous :: _ => Some previous
          end
        else Some last_part in
      match candidate with
      | None => false
      | Some l =>
          (negb (String.eqb l "") && all_chars JS.is_digit l) ||
          match ipv4_number l with Some _ => true | None => false end
      end
  end.

(** The sum of the leading numbers, each weighted by its place. *)
Fixpoint ipv4_leading (counter : nat) (numbers : list N) : N :=
  match numbers with
  | [] => 0
  | n :: rest => (n * 256 ^ N.of_nat (3 - counter) + ipv4_leading (S counter) rest)%N
  end.

Definition ipv4_parse (s : string) : option N :=
  let parts := JS.split "." s in
  let parts :=
    match reverse parts with
    | last_part :: before =>
        if String.eqb last_part "" && (1 <? length parts) then reverse before else parts
    | [] => parts
    end in
  if 4 <? length parts then None
  else
    match mapM ipv4_number parts with
    | None => None
    | Some numbers =>
        match reverse numbers with
        | [] => None
        | last_number :: before =>
            if existsb (fun n => (255 <? n)%N) before then None
            else if (256 ^ N.of_nat (5 - length numbers) <=? last_number)%N then None
            else Some (last_number + ipv4_leading 0 (reverse before))%N
        end
    end.

Definition ipv4_serialise (n : N) : string :=
  decimal (n / 16777216) +:+ "." +:+ decimal ((n / 65536) mod 256) +:+ "." +:+
  decimal ((n / 256) mod 256) +:+ "." +:+ decimal (n mod 256).

(** At most [count] hexadecimal digits: their value, how many, the rest. *)
Fixpoint hex_piece (count : nat) (value : N) (len : nat) (s : string)
  : N * nat * string :=
  match count, s with
  | S count', String c s' =>
      if is_hex c
      then hex_piece count' (value * 16 + N.of_nat (hex_value c))%N (S len) s'
      else (value, len, s)
  | _, _ => (value, len, s)
  end.

(** One number of an IPv4 address written inside an IPv6 one: digits, no
    leading zero, at most 255. *)
Definition ipv4_in_ipv6_number (s : string) : option N :=
  match s with
  | EmptyString => None
  | String c rest =>
      if negb (all_chars JS.is_digit s) then None
      else if ch c "0" && negb (String.eqb rest "") then None
      else match number_in 10 0 s with
           | Some n => if (255 <? n)%N then None else Some n
           | None => None
           end
  end.

Definition ipv4_in_ipv6 (s : string) : option (list N) :=
  match mapM ipv4_in_ipv6_number (JS.split "." s) with
  | Some [a; b; c; d] => Some [(a * 256 + b)%N; (c * 256 + d)%N]
  | _ => None
  end.

(** The loop of the IPv6 parser over the pieces read so far (as many as
    the standard's piece index) and the place of the compression. Each
    turn consumes input, so the length of the input bounds the turns. *)
Fixpoint ipv6_loop (fuel : nat) (pieces : list N) (compress : option nat)
         (s : string) : option (list N * option nat) :=
  match fuel with
  | O => None
  | S fuel' =>
      match s with
      | EmptyString => Some (pieces, compress)
      | String c s' =>
          if 8 <=? length pieces then None
          else if ch c ":" then
            match compress with
            | Some _ => None
            | None => ipv6_loop fuel' (pieces ++ [0%N]) (Some (S (length pieces))) s'
            end
          else
            let '(value, len, rest) := hex_piece 4 0 0 s in
            match rest with
            | EmptyString => Some (pieces ++ [value], compress)
            | String d rest' =>
                if ch d "." then
                  if (len =? 0) || (6 <? length pieces) then None
                  else match ipv4_in_ipv6 s with
                       | Some two => Some (pieces ++ two, compress)
                       | None => None
                       end
                else if ch d ":" then
                  if String.eqb rest' "" then None
                  else ipv6_loop fuel' (pieces ++ [value]) compress rest'
                else None
            end
      end
  end.

Definition ipv6_parse (s : string) : option (list N) :=
  let start :=
    match s with
    | String a rest =>
        if ch a ":" then
          match rest with
          | String b rest' => if ch b ":" then Some ([0%N], Some 1, rest') else None
          | EmptyString => None
          end
        else Some ([], None, s)
    | EmptyString => Some ([], None, s)
    end in
  match start with
  | None => None
  | Some (pieces, compress, rest) =>
      match ipv6_loop (S (String.length rest)) pieces compress rest with
      | None => None
      | Some (pieces, Some k) =>
          Some (take k pieces ++ replicate (8 - length pieces) 0%N ++ drop k pieces)
      | Some (pieces, None) => if length pieces =? 8 then Some pieces else None
      end
  end.

Fixpoint zeros_run (l : list N) : nat :=
  match l with
  | 0%N :: rest => S (zeros_run rest)
  | _ => 0
  end.

(** Where the first longest run of zero pieces starts, and its length. *)
Fixpoint longest_run (i : nat) (l : list N) (best : nat * nat) : nat * nat :=
  match l with
  | [] => best
  | _ :: rest =>
      longest_run (S i) rest (if best.2 <? zeros_run l then (i, zeros_run l) else best)
  end.

Fixpoint ipv6_pieces (i : nat) (compress : option nat) (ignore0 : bool)
         (l : list N) : string :=
  match l with
  | [] => ""
  | p :: rest =>
      if ignore0 && (p =? 0)%N then ipv6_pieces (S i) compress true rest
      else if bool_decide (compress = Some i) then
        (if i =? 0 then "::" else ":") +:+ ipv6_pieces (S i) compress true rest
      else
        hex_lower p +:+ (if i =? 7 then "" else ":") +:+
        ipv6_pieces (S i) compress false rest
  end.

Definition ipv6_serialise (address : list N) : string :=
  let best := longest_run 0 address (0, 0) in
  "[" +:+ ipv6_pieces 0 (if 1 <? best.2 then Some best.1 else None) false address +:+ "]".

Definition forbidden_host (c : ascii) : bool :=
  (code c =? 0) || (code c =? 9) || (code c =? 10) || (code c =? 13) ||
  JS.one_of " #/:<>?@[\]^|" c.

Definition forbidden_domain (c : ascii) : bool :=
  forbidden_host c || (code c <? 32) || ch c "%" || (code c =? 127).

Definition opaque_host_parse (input : string) : option string :=
  if any_char forbidden_host input then None
  else Some (percent_encode C0_control_set input).

Fixpoint without_last (s : string) : string :=
  match s with
  | EmptyString => EmptyString
  | String c EmptyString => EmptyString
  | String c s' => String c (without_last s')
  end.

(** *** Windows drive letters and dot segments *)

Definition is_windows_drive_letter (s : string) : bool :=
  match s with
  | String a (String b EmptyString) => JS.is_alpha a && (ch b ":" || ch b "|")
  | _ => false
  end.

Definition is_normalized_windows_drive_letter (s : string) : bool :=
  match s with
  | String a (String b EmptyString) => JS.is_alpha a && ch b ":"
  | _ => false
  end.

Definition starts_with_windows_drive_letter (s : string) : bool :=
  match s with
  | String a (String b rest) =>
      JS.is_alpha a && (ch b ":" || ch b "|") &&
      match rest with
      | EmptyString => true
      | String c _ => JS.one_of "/\?#" c
      end
  | _ => false
  end.

Definition single_dot (buffer : string) : bool :=
  let b := lowercase buffer in String.eqb b "." || String.eqb b "%2e".

Definition double_dot (buffer : string) : bool :=
  let b := lowercase buffer in
  String.eqb b ".." || String.eqb b ".%2e" || String.eqb b "%2e." ||
  String.eqb b "%2e%2e".

Definition shorten (u : url) : url :=
  match url_path_of u with
  | opaque_path _ => u
  | path_segments l =>
      match l with
      | [only] =>
          if String.eqb (url_scheme u) "file" && is_normalized_windows_drive_letter only
          then u
          else set_path u (path_segments [])
      | _ => set_path u (path_segments (removelast l))
      end
  end.

Definition append_segment (u : url) (segment : string) : url :=
  set_path u (path_segments (segments_of u ++ [segment])).

(** *** The states that cannot fail *)

Definition fragment_state (u : url) (rest : string) : url :=
  set_fragment u (Some (percent_encode fragment_set rest)).

Definition query_state (u : url) (rest : string) : url :=
  let (text, after) := span (fun c => negb (ch c "#")) rest in
  let set := if is_special u then special_query_set else query_set in
  let u := set_query u (Some (percent_encode set text)) in
  match after with
  | String _ fragment => fragment_state u fragment
  | EmptyString => u
  end.

(** What the path state does with its buffer when a segment ends, at a
    slash or not. *)
Definition end_segment (u : url) (buffer : string) (at_slash : bool) : url :=
  if double_dot buffer then
    let u := shorten u in
    if at_slash then u else append_segment u ""
  else if single_dot buffer then
    if at_slash then u else append_segment u ""
  else
    match buffer, segments_of u with
    | String a (String _ EmptyString), [] =>
        if String.eqb (url_scheme u) "file" && is_windows_drive_letter buffer
        then append_segment u (String a ":")
        else append_segment u buffer
    | _, _ => append_segment u buffer
    end.

Fixpoint path_state (u : url) (buffer : string) (rest : string) : url :=
  match rest with
  | EmptyString => end_segment u buffer false
  | String c rest' =>
      if ch c "/" || (is_special u && ch c "\") then
        path_state (end_segment u buffer true) "" rest'
      else if ch c "?" then query_state (end_segment u buffer false) rest'
      else if ch c "#" then fragment_state (end_segment u buffer false) rest'
      else path_state u (buffer +:+ percent_encode path_set (String c "")) rest'
  end.

(** The text of an opaque path, and what follows it from [?] or [#] on. *)
Fixpoint opaque_path_text (rest : string) : string * string :=
  match rest with
  | EmptyString => (EmptyString, EmptyString)
  | String c rest' =>
      if ch c "?" || ch c "#" then (EmptyString, rest)
      else
        let (text, after) := opaque_path_text rest' in
        let here :=
          if ch c " " then
            match rest' with
            | String d _ => if ch d "?" || ch d "#" then "%20" else " "
            | EmptyString => " "
            end
          else percent_encode C0_control_set (String c "") in
        (here +:+ text, after)
  end.

Definition opaque_path_state (u : url) (rest : string) : url :=
  let (text, after) := opaque_path_text rest in
  let u := set_path u (opaque_path text) in
  match after with
  | String c after' => if ch c "?" then query_state u after' else fragment_state u after'
  | EmptyString => u
  end.

Definition path_start_state (u : url) (rest : string) : url :=
  match rest with
  | String c rest' =>
      if is_special u then
        if ch c "/" || ch c "\" then path_state u "" rest' else path_state u "" rest
      else if ch c "?" then query_state u rest'
      else if ch c "#" then fragment_state u rest'
      else if ch c "/" then path_state u "" rest'
      else path_state u "" rest
  | EmptyString => if is_special u then path_state u "" "" else u
  end.

Definition ends_authority (special : bool) (c : ascii) : bool :=
  ch c "/" || ch c "?" || ch c "#" || (special && ch c "\").

Definition port_state (u : url) (rest : string) : option url :=
  let (digits, after) := span JS.is_digit rest in
  let at_end :=
    match after with
    | EmptyString => true
    | String c _ => ends_authority (is_special u) c
    end in
  if negb at_end then None
  else if String.eqb digits "" then Some (path_start_state u after)
  else
    match number_in 10 0 digits with
    | Some port =>
        if (65535 <? port)%N then None
        else
          let kept :=
            if bool_decide (default_port (url_scheme u) = Some (Some port))
            then None else Some port in
          Some (path_start_state (set_port u kept) after)
    | None => None
    end.

Section Parser.

(** Unicode's domain-to-ASCII (UTS 46 with the standard's flags), asked
    only for a domain that is not plain ASCII or carries an [xn--]
    label. *)
Variable unicode_ToASCII : string -> option string.

Definition domain_to_ASCII (domain : string) : option string :=
  if all_chars (fun c => code c <? 128) domain &&
     negb (existsb (fun label => String.prefix "xn--" (lowercase label))
                   (JS.split "." domain))
  then if String.eqb domain "" then None else Some (lowercase domain)
  else unicode_ToASCII domain.

(** The host parser, giving the host serialised. *)
Definition host_parse (input : string) (isOpaque : bool) : option string :=
  match input with
  | String "[" inner =>
      if JS.endsWith inner "]"
      then option_map ipv6_serialise (ipv6_parse (without_last inner))
      else None
  | _ =>
      if isOpaque then opaque_host_parse input
      else
        match domain_to_ASCII (percent_decode input) with
        | None => None
        | Some asciiDomain =>
            if any_char forbidden_domain asciiDomain then None
            else if ends_in_a_number asciiDomain
            then option_map ipv4_serialise (ipv4_parse asciiDomain)
            else Some asciiDomain
        end
  end.

(** The text of a host: up to a colon outside brackets or to the end of
    the authority. *)
Fixpoint host_text (special inside : bool) (s : string) : string * string :=
  match s with
  | EmptyString => (EmptyString, EmptyString)
  | String c s' =>
      if (ch c ":" && negb inside) || ends_authority special c
      then (EmptyString, s)
      else
        let inside := if ch c "[" then true else if ch c "]" then false else inside in
        let (text, after) := host_text special inside s' in
        (String c text, after)
  end.

Definition host_state (u : url) (rest : string) : option url :=
  let special := is_special u in
  let (buffer, after) := host_text special false rest in
  let at_colon :=
    match after with
    | String c _ => ch c ":"
    | EmptyString => false
    end in
  if at_colon then
    if String.eqb buffer "" then None
    else
      match host_parse buffer (negb special) with
      | None => None
      | Some h => port_state (set_host u (Some h)) (JS.drop 1 after)
      end
  else if special && String.eqb buffer "" then None
  else
    match host_parse buffer (negb special) with
    | None => None
    | Some h => Some (path_start_state (set_host u (Some h)) after)
    end.

(** [s] cut at its last [sep]. *)
Fixpoint split_last (sep : ascii) (s : string) : option (string * string) :=
  match s with
  | EmptyString => None
  | String c s' =>
      match split_last sep s' with
      | Some (before, after) => Some (String c before, after)
      | None => if ch c sep then Some (EmptyString, s') else None
      end
  end.

Definition authority_state (u : url) (rest : string) : option url :=
  let special := is_special u in
  let (segment, after) := span (fun c => negb (ends_authority special c)) rest in
  match split_last "@" segment with
  | None => host_state u rest
  | Some (credentials, host_part) =>
      if String.eqb host_part "" then None
      else
        let (user, colon_password) := span (fun c => negb (ch c ":")) credentials in
        let u := set_authority u (percent_encode userinfo_set user)
                   (percent_encode userinfo_set (JS.drop 1 colon_password))
                   (url_host u) (url_port u) in
        host_state u (host_part +:+ after)
  end.

Fixpoint skip_slashes (s : string) : string :=
  match s with
  | EmptyString => EmptyString
  | String c s' => if ch c "/" || ch c "\" then skip_slashes s' else s
  end.

Definition special_authority_ignore_slashes_state (u : url) (rest : string)
  : option url :=
  authority_state u (skip_slashes rest).

Definition copy_authority (u base : url) : url :=
  set_authority u (url_username base) (url_password base) (url_host base)
                (url_port base).

Definition relative_slash_state (base u : url) (rest : string) : option url :=
  match rest with
  | String c rest' =>
      if is_special u && (ch c "/" || ch c "\")
      then special_authority_ignore_slashes_state u rest'
      else if ch c "/" then authority_state u rest'
      else Some (path_state (copy_authority u base) "" rest)
  | EmptyString => Some (path_state (copy_authority u base) "" "")
  end.

Definition relative_state (base : url) (rest : string) : option url :=
  let u := blank (url_scheme base) in
  match rest with
  | String c rest' =>
      if ch c "/" || (is_special u && ch c "\") then relative_slash_state base u rest'
      else
        let u := set_query (set_path (copy_authority u base) (url_path_of base))
                           (url_query base) in
        if ch c "?" then Some (query_state u rest')
        else if ch c "#" then Some (fragment_state u rest')
        else Some (path_state (shorten (set_query u None)) "" rest)
  | EmptyString => Some (set_fragment base None)
  end.

Definition is_file (base : option url) : option url :=
  match base with
  | Some b => if String.eqb (url_scheme b) "file" then Some b else None
  | None => None
  end.

Definition file_host_state (u : url) (rest : string) : option url :=
  let (buffer, after) := span (fun c => negb (JS.one_of "/\?#" c)) rest in
  if is_windows_drive_letter buffer then Some (path_state u buffer after)
  else if String.eqb buffer "" then Some (path_start_state (set_host u (Some "")) after)
  else
    match host_parse buffer false with
    | None => None
    | Some h =>
        let h := if String.eqb h "localhost" then "" else h in
        Some (path_start_state (set_host u (Some h)) after)
    end.

Definition file_slash_state (base : option url) (u : url) (rest : string)
  : option url :=
  let from_base :=
    match is_file base with
    | Some b =>
        let u := set_host u (url_host b) in
        match segments_of b with
        | drive :: _ =>
            if negb (starts_with_windows_drive_letter rest) &&
               is_normalized_windows_drive_letter drive
            then append_segment u drive else u
        | [] => u
        end
    | None => u
    end in
  match rest with
  | String c rest' =>
      if ch c "/" || ch c "\" then file_host_state u rest'
      else Some (path_state from_base "" rest)
  | EmptyString => Some (path_state from_base "" rest)
  end.

Definition file_state (base : option url) (rest : string) : option url :=
  let u := set_host (blank "file") (Some "") in
  match rest with
  | String c rest' =>
      if ch c "/" || ch c "\" then file_slash_state base u rest'
      else
        match is_file base with
        | Some b =>
            let u := set_query (set_path (set_host u (url_host b)) (url_path_of b))
                               (url_query b) in
            if ch c "?" then Some (query_state u rest')
            else if ch c "#" then Some (fragment_state u rest')
            else
              let u := set_query u None in
              let u := if starts_with_windows_drive_letter rest
                       then set_path u (path_segments []) else shorten u in
              Some (path_state u "" rest)
        | None => Some (path_state u "" rest)
        end
  | EmptyString =>
      match is_file base with
      | Some b =>
          Some (set_query (set_path (set_host u (url_host b)) (url_path_of b))
                          (url_query b))
      | None => Some (path_state u "" "")
      end
  end.


(** *** The parser *)

Definition C0_control_or_space (c : ascii) : bool := code c <=? 32.

Fixpoint strip_leading (s : string) : string :=
  match s with
  | EmptyString => EmptyString
  | String c s' => if C0_control_or_space c then strip_leading s' else s
  end.

Fixpoint strip_trailing (s : string) : string :=
  match s with
  | EmptyString => EmptyString
  | String c s' =>
      if all_chars C0_control_or_space s then EmptyString
      else String c (strip_trailing s')
  end.

Fixpoint remove_tab_newline (s : string) : string :=
  match s with
  | EmptyString => EmptyString
  | String c s' =>
      if (code c =? 9) || (code c =? 10) || (code c =? 13)
      then remove_tab_newline s'
      else String c (remove_tab_newline s')
  end.

(** The scheme state: the scheme in lower case and what follows its
    colon, [None] when the input has no scheme. *)
Fixpoint scheme_state (buffer : string) (s : string) : option (string * string) :=
  match s with
  | EmptyString => None
  | String c s' =>
      if JS.is_alpha c || JS.is_digit c || JS.one_of "+-." c
      then scheme_state (buffer +:+ String (lower c) "") s'
      else if ch c ":" then Some (buffer, s')
      else None
  end.

Definition scheme_start_state (s : string) : option (string * string) :=
  match s with
  | String c _ => if JS.is_alpha c then scheme_state "" s else None
  | EmptyString => None
  end.

Definition no_scheme_state (base : option url) (input : string) : option url :=
  match base with
  | None => None
  | Some b =>
      if has_opaque_path b then
        match input with
        | String c fragment =>
            if ch c "#" then Some (fragment_state (set_fragment b None) fragment)
            else None
        | EmptyString => None
        end
      else if negb (String.eqb (url_scheme b) "file") then relative_state b input
      else file_state base input
  end.

(** The basic URL parser, without a state override. *)
Definition basic_URL_parse (input : string) (base : option url) : option url :=
  let input := remove_tab_newline (strip_trailing (strip_leading input)) in
  match scheme_start_state input with
  | None => no_scheme_state base input
  | Some (scheme, rest) =>
      let u := blank scheme in
      if is_special_scheme scheme then
        if String.eqb scheme "file" then file_state base rest
        else
          match base with
          | Some b =>
              if String.eqb (url_scheme b) scheme then
                (* special relative or authority state *)
                if String.prefix "//" rest
                then special_authority_ignore_slashes_state u (JS.drop 2 rest)
                else relative_state b rest
              else special_authority_ignore_slashes_state u rest
          | None => special_authority_ignore_slashes_state u rest
          end
      else
        match rest with
        | String c rest' =>
            if ch c "/" then
              (* path or authority state *)
              match rest' with
              | String d rest'' =>
                  if ch d "/" then authority_state u rest''
                  else Some (path_state u "" rest')
              | EmptyString => Some (path_state u "" rest')
              end
            else Some (opaque_path_state u rest)
        | EmptyString => Some (opaque_path_state u rest)
        end
  end.

(** *** The serialiser and the API *)

Definition path_serialise (u : url) : string :=
  match url_path_of u with
  | opaque_path s => s
  | path_segments l => fold_right (fun segment out => "/" +:+ segment +:+ out) "" l
  end.

Definition port_serialise (u : url) : string :=
  match url_port u with
  | Some p => ":" +:+ decimal p
  | None => ""
  end.

Definition serialise (u : url) : string :=
  url_scheme u +:+ ":" +:+
  match url_host u with
  | Some h =>
      "//" +:+
      (if negb (String.eqb (url_username u) "") || negb (String.eqb (url_password u) "")
       then url_username u +:+
            (if String.eqb (url_password u) "" then "" else ":" +:+ url_password u) +:+
            "@"
       else "") +:+
      h +:+ port_serialise u
  | None =>
      match url_path_of u with
      | path_segments (first :: _ :: _) => if String.eqb first "" then "/." else ""
      | _ => ""
      end
  end +:+
  path_serialise u +:+
  match url_query u with Some q => "?" +:+ q | None => "" end +:+
  match url_fragment u with Some f => "#" +:+ f | None => "" end.

Definition tuple_origin (u : url) : string :=
  url_scheme u +:+ "://" +:+ default "" (url_host u) +:+ port_serialise u.

Definition origin_of (u : url) : string :=
  let scheme := url_scheme u in
  if String.eqb scheme "http" || String.eqb scheme "https" || String.eqb scheme "ftp" ||
     String.eqb scheme "ws" || String.eqb scheme "wss"
  then tuple_origin u
  else if String.eqb scheme "blob" then
    match basic_URL_parse (path_serialise u) None with
    | Some inner =>
        if String.eqb (url_scheme inner) "http" || String.eqb (url_scheme inner) "https"
        then tuple_origin inner else "null"
    | None => "null"
    end
  else "null".

(** The [URL] object of a record. *)
Definition URL_of (u : url) : URL :=
  {| href := serialise u;
     origin := origin_of u;
     protocol := url_scheme u +:+ ":";
     host := match url_host u with
             | Some h => h +:+ port_serialise u
             | None => ""
             end;
     pathname := path_serialise u;
     search := match url_query u with
               | Some (String c q) => String "?" (String c q)
               | _ => ""
               end;
     hash := match url_fragment u with
             | Some (String c f) => String "#" (String c f)
             | _ => ""
             end |}.

(** [new URL(input, base)]: [None] where the constructor throws. *)
Definition new_URL (input : string) (base : option string) : option URL :=
  match base with
  | None => option_map URL_of (basic_URL_parse input None)
  | Some b =>
      match basic_URL_parse b None with
      | None => None
      | Some parsedBase => option_map URL_of (basic_URL_parse input (Some parsedBase))
      end
  end.

End Parser.

(** [u'] has the scheme of [u], and its path in segments if [u] has. *)
Definition extends (u u' : url) : Prop :=
  url_scheme u' = url_scheme u /\
  (has_opaque_path u = false -> has_opaque_path u' = false).

(** [u'] is on the site of [u]: same scheme, same host, same port. *)
Definition same_site (u u' : url) : Prop :=
  url_scheme u' = url_scheme u /\ url_host u' = url_host u /\ url_port u' = url_port u.

End WHATWG.

(** ** [src/server/db/index.ts] *)

Module Db.

(** What [mysql.createPool] and [drizzle] return: objects, each told
    from the others by the order of its creation; a client holds the pool
    it was made over. *)
Record Pool := { pool_number : nat }.
Record MySql2Database := { client_number : nat; client_pool : Pool }.

(** The module's two variables, and how many pools and clients the
    process has created. *)
Record State := {
  _connection : option Pool;
  _db : option MySql2Database;
  pools_created : nat;
  clients_created : nat
}.

(** The state after the module is loaded: lines 10 and 11. *)
Definition loaded : State :=
  {| _connection := None; _db := None; pools_created := 0; clients_created := 0 |}.

Definition M (A : Type) : Type := State -> A * State.

Definition ret {A} (a : A) : M A := fun s => (a, s).
Definition bind {A B} (m : M A) (k : A -> M B) : M B :=
  fun s => let (a, s') := m s in k a s'.

Notation "'let*' x := m 'in' k" := (bind m (fun x => k))
  (at level 10, x name, m at level 100, k at level 200).

Definition createPool : M Pool :=
  fun s =>
    ({| pool_number := pools_created s |},
     {| _connection := _connection s; _db := _db s;
        pools_created := S (pools_created s); clients_created := clients_created s |}).

Definition drizzle (pool : Pool) : M MySql2Database :=
  fun s =>
    ({| client_number := clients_created s; client_pool := pool |},
     {| _connection := _connection s; _db := _db s;
        pools_created := pools_created s; clients_created := S (clients_created s) |}).

Definition read_connection : M (option Pool) := fun s => (_connection s, s).
Definition read_db : M (option MySql2Database) := fun s => (_db s, s).

Definition write_connection (pool : Pool) : M unit :=
  fun s =>
    (tt, {| _connection := Some pool; _db := _db s;
            pools_created := pools_created s; clients_created := clients_created s |}).

Definition write_db (client : MySql2Database) : M unit :=
  fun s =>
    (tt, {| _connection := _connection s; _db := Some client;
            pools_created := pools_created s; clients_created := clients_created s |}).

(** [getConnection], lines 13 to 21. *)
Definition getConnection : M Pool :=
  let* current := read_connection in
  match current with
  | Some pool => ret pool
  | None =>
      let* pool := createPool in
      let* _ := write_connection pool in
      ret pool
  end.

(** [getDb], lines 23 to 28. *)
Definition getDb : M MySql2Database :=
  let* current := read_db in
  match current with
  | Some client => ret client
  | None =>
      let* pool := getConnection in
      let* client := drizzle pool in
      let* _ := write_db client in
      ret client
  end.

(** The two exported proxies, and the instance a property read of one
    goes to: the [get] traps of lines 30 to 50 read [prop] of (and bind a
    method to) whatever the accessor returns. *)
Inductive Export := connection | db.

Inductive Instance :=
| pool_instance (pool : Pool)
| client_instance (client : MySql2Database).

Definition get (target : Export) (prop : string) : M Instance :=
  match target with
  | connection => let* instance := getConnection in ret (pool_instance instance)
  | db => let* instance := getDb in ret (client_instance instance)
  end.

(** A process reading properties of the exports, one after the other: the
    instances the reads went to, and the state left. *)
Fixpoint reads (accesses : list (Export * string)) : M (list Instance) :=
  match accesses with
  | [] => ret []
  | (target, prop) :: rest =>
      let* instance := get target prop in
      let* instances := reads rest in
      ret (instance :: instances)
  end.

(** The first pool, and the first client, made over it. *)
Definition first_pool : Pool := {| pool_number := 0 |}.
Definition first_client : MySql2Database :=
  {| client_number := 0; client_pool := first_pool |}.

Definition instance_of (target : Export) : Instance :=
  match target with
  | connection => pool_instance first_pool
  | db => client_instance first_client
  end.

Definition reads_db (access : Export * string) : bool :=
  match access.1 with
  | db => true
  | connection => false
  end.

(** The states a process can be in: nothing created, the pool created, or
    the pool and the client created. *)
Inductive reachable : State -> Prop :=
| nothing_created : reachable loaded
| pool_created :
    reachable {| _connection := Some first_pool; _db := None;
                 pools_created := 1; clients_created := 0 |}
| client_created :
    reachable {| _connection := Some first_pool; _db := Some first_client;
                 pools_created := 1; clients_created := 1 |}.

End Db.

(** ** The rest of [src/middleware.ts]: the exported handler *)

(** How the awaited [auth.protect()] of Clerk settles: it resolves for a
    signed-in visitor and throws Clerk's own control-flow error otherwise. *)
Inductive Protect :=
| protect_resolves
| protect_throws.

(** What the handler given to [clerkMiddleware] does with a request: it is
    interrupted by [auth.protect()], or it goes on as
    [resolveLinkAndLogAnalytics] does. *)
Inductive Handled :=
| interrupted_by_protect
| continued (r : Run).

Section Handler.

Variable new_URL : string -> option string -> option URL.
Variable createRouteMatcher : list string -> NextRequest -> bool.
Variable isBot : string -> bool.
Variable getCountryContinentCode : string -> option string.
Variable NODE_ENV : option string.
(** [auth.protect()], for the request at hand. *)
Variable auth_protect : NextRequest -> Protect.

(** The handler of lines 161 to 164. *)
Definition handler (req : NextRequest) : Handled :=
  if isProtectedRoute createRouteMatcher req then
    match auth_protect req with
    | protect_throws => interrupted_by_protect
    | protect_resolves =>
        continued (resolveLinkAndLogAnalytics new_URL createRouteMatcher isBot
                     getCountryContinentCode NODE_ENV req)
    end
  else
    continued (resolveLinkAndLogAnalytics new_URL createRouteMatcher isBot
                 getCountryContinentCode NODE_ENV req).

End Handler.

(** ** The geolocation route

    The route handler that echoes what the headers say of the caller (the
    second source file, kept under [src/next.config.js] from its line 14
    on). It has its own copies of [getIpAddress] and [getGeolocation], the
    latter with three more fields. *)

Module GeoRoute.

(** [getIpAddress], lines 20 to 37. *)
Definition getIpAddress (request : NextRequest) : option string :=
  let forwardedFor := headers_get request "x-forwarded-for" in
  if JS.truthy forwardedFor then
    match JS.split "," (JS.nullish forwardedFor "") with
    | first :: _ => Some (JS.trim first)
    | [] => None
    end
  else
    let realIp := headers_get request "x-real-ip" in
    if JS.truthy realIp then realIp
    else
      let cfConnectingIp := headers_get request "cf-connecting-ip" in
      if JS.truthy cfConnectingIp then cfConnectingIp
      else None.

Record Details := {
  country : option string;
  city : option string;
  region : option string;
  latitude : option string;
  longitude : option string
}.

(** [getGeolocation], lines 43 to 70. *)
Definition getGeolocation (request : NextRequest) : Details :=
  let cfCountry := headers_get request "cf-ipcountry" in
  let cfCity := headers_get request "cf-ipcity" in
  let cfRegion := headers_get request "cf-region" in
  let cfLatitude := headers_get request "cf-iplat" in
  let cfLongitude := headers_get request "cf-iplon" in
  let awsCountry := headers_get request "cloudfront-viewer-country" in
  let awsCity := headers_get request "cloudfront-viewer-city" in
  let awsRegion := headers_get request "cloudfront-viewer-country-region" in
  let awsLatitude := headers_get request "cloudfront-viewer-latitude" in
  let awsLongitude := headers_get request "cloudfront-viewer-longitude" in
  let geoCountry := headers_get request "x-geo-country" in
  let geoCity := headers_get request "x-geo-city" in
  let geoRegion := headers_get request "x-geo-region" in
  {| country := JS.or (JS.or (JS.or cfCountry awsCountry) geoCountry) None;
     city := JS.or (JS.or (JS.or cfCity awsCity) geoCity) None;
     region := JS.or (JS.or (JS.or cfRegion awsRegion) geoRegion) None;
     latitude := JS.or (JS.or cfLatitude awsLatitude) None;
     longitude := JS.or (JS.or cfLongitude awsLongitude) None |}.

(** The member [JSON.stringify] writes for a property: none for
    [undefined]. *)
Definition property (key : string) (value : option string) : list (string * JSON) :=
  match value with
  | Some s => [(key, JString s)]
  | None => []
  end.

(** [GET], lines 72 to 76: the body of [Response.json({ ...details, ip })],
    as the client parses it. *)
Definition GET (request : NextRequest) : JSON :=
  let details := getGeolocation request in
  let ip := getIpAddress request in
  JObject (property "country" (country details) ++
           property "city" (city details) ++
           property "region" (region details) ++
           property "latitude" (latitude details) ++
           property "longitude" (longitude details) ++
           property "ip" ip).

End GeoRoute.

(** ** An instance of the middleware's variables

    For evaluating the middleware on a concrete request every variable needs
    a value. The parser is [WHATWG.new_URL]; the others are small stand-ins,
    and the requests evaluated below are chosen so that no result depends on
    them: plain ASCII hosts, no [user-agent] header. *)

Module Sample.

(** A domain-to-ASCII that knows no Unicode: it refuses what it is asked. *)
Definition unicode_ToASCII : string -> option string := fun _ => None.

Definition new_URL : string -> option string -> option URL :=
  WHATWG.new_URL unicode_ToASCII.

Fixpoint strip_suffix (suffix s : string) : option string :=
  if String.eqb s suffix then Some EmptyString
  else match s with
       | EmptyString => None
       | String c s' => option_map (String c) (strip_suffix suffix s')
       end.

(** Clerk's matcher for patterns that are a literal path, or a literal
    prefix followed by the catch-all group the source writes after
    [/dashboard]; it compares without regard to case. *)
Definition createRouteMatcher (patterns : list string) (request : NextRequest) : bool :=
  match new_URL (url request) None with
  | None => false
  | Some u =>
      let path := WHATWG.lowercase (pathname u) in
      existsb (fun pattern =>
                 match strip_suffix "(.*)" pattern with
                 | Some literal => JS.startsWith path (WHATWG.lowercase literal)
                 | None => String.eqb path (WHATWG.lowercase pattern)
                 end) patterns
  end.

Definition isBot (userAgent : string) : bool :=
  existsb (JS.includes (WHATWG.lowercase userAgent))
          ["bot"; "facebookexternalhit"; "whatsapp"; "slack"; "crawler"; "spider"].

Definition continents : gmap string string :=
  list_to_map [("FR", "EU"); ("DE", "EU"); ("GB", "EU"); ("US", "NA"); ("CA", "NA");
               ("BR", "SA"); ("JP", "AS"); ("IN", "AS"); ("GH", "AF"); ("AU", "OC")].

Definition getCountryContinentCode (country : string) : option string :=
  Some (default "Unknown" (continents !! country)).

(** The middleware outside production. *)
Definition middleware : NextRequest -> Run :=
  resolveLinkAndLogAnalytics new_URL createRouteMatcher isBot getCountryContinentCode None.

(** A request for the alias [/abc], with no header and no query. *)
Definition request_abc : NextRequest :=
  {| url := "https://ishortn.ink/abc"; searchParams := []; headers := ∅ |}.

End Sample.

(** ** The continent table of [@/lib/countries] *)

Module Countries.

(** Modelled from the spec: [getCountryContinentCode], which is imported
    from [@/lib/countries] and is not under [src/]. The specification has
    the continent derived from the resolved country via a static
    country-to-continent lookup table and says nothing of a country the
    table does not list; the model is the lookup itself, [undefined] where
    the table has no entry. The table is a parameter. *)
Definition getCountryContinentCode (table : gmap string string) (country : string)
  : option string :=
  table !! country.

End Countries.

(** ** The examples of the specification *)

(** The resolver answering 200 with the given JSON body. *)
Definition resolver_says (data : JSON) : FetchResult :=
  fetch_resolved {| status := 200; json := Some data |}.

(** The resolver's answers of the specification's examples. *)
Definition scheme_less_answer : JSON := JObject [("url", JString "example.com/page")].
Definition script_answer : JSON := JObject [("url", JString "javascript:alert(1)")].
Definition data_answer : JSON :=
  JObject [("url", JString "data:text/html,<script>alert(1)</script>")].
Definition cloaking_answer : JSON :=
  JObject [("url", JString "https://example.com"); ("cloaking", JBool true)].

(** A request with an override and a Cloudflare country, on a host that is
    not a loopback one. *)
Definition request_geo_override : NextRequest :=
  {| url := "https://ishortn.ink/abc?geo=US";
     searchParams := [("geo", "US")];
     headers := {[ "cf-ipcountry" := "FR" ]} |}.

(** A request whose forwarded-for list starts with a blank entry. *)
Definition request_blank_forwarded : NextRequest :=
  {| url := "https://ishortn.ink/abc"; searchParams := [];
     headers := {[ "x-forwarded-for" := " , 5.6.7.8"; "x-real-ip" := "9.9.9.9" ]} |}.

(** A request for a static file the filter has no rule for, and a
    crawler's request. *)
Definition request_robots : NextRequest :=
  {| url := "https://ishortn.ink/robots.txt"; searchParams := []; headers := ∅ |}.

Definition url_robots : URL :=
  {| href := "https://ishortn.ink/robots.txt"; origin := "https://ishortn.ink";
     protocol := "https:"; host := "ishortn.ink"; pathname := "/robots.txt";
     search := ""; hash := "" |}.

Definition request_crawler : NextRequest :=
  {| url := "https://ishortn.ink/abc"; searchParams := [];
     headers := {[ "user-agent" := "Twitterbot/1.0" ]} |}.

(** A request whose override carries a second parameter. *)
Definition request_injecting : NextRequest :=
  {| url := "https://ishortn.ink/abc?geo=FR%26ip%3D6.6.6.6";
     searchParams := [("geo", "FR&ip=6.6.6.6")];
     headers := ∅ |}.

Definition url_injecting : URL :=
  {| href := "https://ishortn.ink/abc?geo=FR%26ip%3D6.6.6.6";
     origin := "https://ishortn.ink"; protocol := "https:"; host := "ishortn.ink";
     pathname := "/abc"; search := "?geo=FR%26ip%3D6.6.6.6"; hash := "" |}.

(** A request whose override names no country. *)
Definition request_unlisted : NextRequest :=
  {| url := "https://ishortn.ink/abc?geo=ZZ"; searchParams := [("geo", "ZZ")];
     headers := ∅ |}.

Definition url_unlisted : URL :=
  {| href := "https://ishortn.ink/abc?geo=ZZ"; origin := "https://ishortn.ink";
     protocol := "https:"; host := "ishortn.ink"; pathname := "/abc";
     search := "?geo=ZZ"; hash := "" |}.

(** A request for a page of the dashboard. *)
Definition request_dashboard : NextRequest :=
  {| url := "https://ishortn.ink/dashboard/links"; searchParams := []; headers := ∅ |}.

Definition request_api : NextRequest :=
  {| url := "https://ishortn.ink/api/link"; searchParams := []; headers := ∅ |}.

Definition request_trailing_slash : NextRequest :=
  {| url := "https://ishortn.ink/abc/"; searchParams := []; headers := ∅ |}.

(** What [new URL] makes of the URL of [Sample.request_abc]. *)
Definition url_abc : URL :=
  {| href := "https://ishortn.ink/abc"; origin := "https://ishortn.ink";
     protocol := "https:"; host := "ishortn.ink"; pathname := "/abc";
     search := ""; hash := "" |}.

(** What [new URL] makes of [https://example.com], whatever the base. *)
Definition url_example_com : URL :=
  {| href := "https://example.com/"; origin := "https://example.com";
     protocol := "https:"; host := "example.com"; pathname := "/";
     search := ""; hash := "" |}.

(** ** The vocabulary of the properties *)

(** The paths the specification says are never resolved. *)
Inductive ineligible (pathname : string) : Prop :=
| site_root : pathname = "/" -> ineligible pathname
| api_path rest : pathname = "/api/" +:+ rest -> ineligible pathname
| dashboard_path rest : pathname = "/dashboard" +:+ rest -> ineligible pathname
| framework_path rest : pathname = "/_next/" +:+ rest -> ineligible pathname
| cloaked_path rest : pathname = "/cloaked/" +:+ rest -> ineligible pathname
| png_file front : pathname = front +:+ ".png" -> ineligible pathname
| ico_file front : pathname = front +:+ ".ico" -> ineligible pathname
| nested_path first rest :
    pathname = "/" +:+ first +:+ "/" +:+ rest -> ineligible pathname.

(** How the dispatcher comes to trust an address: parsed against the
    request's URL with scheme [http] or [https], or, where that parse
    throws, parsed after [https://] was put in front, with scheme
    [https]. *)
Inductive validates (new_URL : string -> option string -> option URL)
          (request : NextRequest) (data_url : option JSON) (validated : URL) : Prop :=
| parsed_http_or_https :
    new_URL (ToString data_url) (Some (url request)) = Some validated ->
    protocol validated = "http:" \/ protocol validated = "https:" ->
    validates new_URL request data_url validated
| fallback_https :
    new_URL (ToString data_url) (Some (url request)) = None ->
    new_URL ("https://" +:+ ToString data_url) None = Some validated ->
    protocol validated = "https:" ->
    validates new_URL request data_url validated.

(** An alias the eligibility filter has no rule against: one segment, not
    empty, not starting with [dashboard], not ending in [.png] or [.ico]. *)
Definition plain_alias (alias : string) : Prop :=
  alias <> "" /\
  JS.includes alias "/" = false /\
  (forall rest, alias <> "dashboard" +:+ rest) /\
  (forall front, alias <> front +:+ ".png") /\
  (forall front, alias <> front +:+ ".ico").

(** A visible ASCII character: neither a space, nor a control character,
    nor a byte of a longer UTF-8 sequence. *)
Definition visible (c : ascii) : bool :=
  (33 <=? nat_of_ascii c) && (nat_of_ascii c <=? 126).

(** The white space of one byte that [trim] removes. *)
Definition white (c : ascii) : bool :=
  let n := nat_of_ascii c in ((9 <=? n) && (n <=? 13)) || (n =? 32).

(** The characters [encodeURIComponent] writes: those it keeps, and the
    percent sign of its escapes (whose two digits it keeps too). *)
Definition component_char (c : ascii) : bool :=
  JS.uriUnescaped c || Ascii.eqb c "%".

(** The characters [encodeURI] leaves as they are. *)
Definition encodeURI_keeps (c : ascii) : bool :=
  JS.uriUnescaped c || JS.uriReserved c || Ascii.eqb c "#".

(** A JSON body in which [data.url] is absent or falsy. *)
Inductive carries_no_url : JSON -> Prop :=
| boolean_body b : carries_no_url (JBool b)
| number_body zero text : carries_no_url (JNumber zero text)
| string_body s : carries_no_url (JString s)
| array_body items : carries_no_url (JArray items)
| object_without_url members :
    member "url" members = None -> carries_no_url (JObject members)
| object_with_falsy_url members value :
    member "url" members = Some value ->
    value = JNull \/ value = JBool false \/ value = JString "" \/
    (exists text, value = JNumber true text) ->
    carries_no_url (JObject members).

(** * Properties *)

(** ** Facts about the string operations *)

Lemma append_cons (c : ascii) (s t : string) : String c s +:+ t = String c (s +:+ t).
Proof. reflexivity. Qed.

Lemma append_empty_l (s : string) : "" +:+ s = s.
Proof. reflexivity. Qed.

Lemma append_assoc (s t r : string) : (s +:+ t) +:+ r = s +:+ (t +:+ r).
Proof.
  induction s as [|c s IH]; [reflexivity|].
  rewrite !append_cons. by rewrite IH.
Qed.

Lemma startsWith_append (p r : string) : JS.startsWith (p +:+ r) p = true.
Proof.
  unfold JS.startsWith. induction p as [|c p IH].
  - by destruct r.
  - rewrite append_cons. simpl. destruct (ascii_dec c c); [exact IH|congruence].
Qed.

Lemma endsWith_unfold (s p : string) :
  JS.endsWith s p =
  String.eqb s p || match s with
                    | EmptyString => false
                    | String _ s' => JS.endsWith s' p
                    end.
Proof. by destruct s. Qed.

Lemma endsWith_refl (s : string) : JS.endsWith s s = true.
Proof. rewrite endsWith_unfold. by rewrite String.eqb_refl. Qed.

Lemma endsWith_append (front s : string) : JS.endsWith (front +:+ s) s = true.
Proof.
  induction front as [|c front IH].
  - apply endsWith_refl.
  - rewrite append_cons, endsWith_unfold, IH. apply orb_true_r.
Qed.

Lemma split_nonempty (sep : ascii) (s : string) : 1 <= length (JS.split sep s).
Proof.
  induction s as [|c s IH]; simpl; [lia|].
  destruct (Ascii.eqb c sep); simpl; [lia|].
  destruct (JS.split sep s); simpl in *; lia.
Qed.

(** A character in front never takes a piece away. *)
Lemma split_length_cons (sep c : ascii) (s : string) :
  length (JS.split sep s) <= length (JS.split sep (String c s)).
Proof.
  simpl. destruct (Ascii.eqb c sep); simpl; [lia|].
  pose proof (split_nonempty sep s).
  destruct (JS.split sep s); simpl in *; lia.
Qed.

Lemma split_length_append (sep : ascii) (front s : string) :
  length (JS.split sep s) <= length (JS.split sep (front +:+ s)).
Proof.
  induction front as [|c front IH]; [reflexivity|].
  rewrite append_cons. etrans; [exact IH|apply split_length_cons].
Qed.

(** A separator in front adds a piece. *)
Lemma split_length_sep (sep : ascii) (s : string) :
  length (JS.split sep (String sep s)) = S (length (JS.split sep s)).
Proof. simpl. by rewrite Ascii.eqb_refl. Qed.

Lemma split_length_sep_pieces (sep : ascii) (s : string) :
  JS.split sep (String sep s) = "" :: JS.split sep s.
Proof. simpl. by rewrite Ascii.eqb_refl. Qed.

(** A path with a second slash splits into more than two pieces. *)
Lemma split_two_slashes (first rest : string) :
  2 < length (JS.split "/" ("/" +:+ first +:+ "/" +:+ rest)).
Proof.
  change ("/" +:+ first +:+ "/" +:+ rest)
    with (String "/" (first +:+ String "/" rest)).
  rewrite split_length_sep.
  pose proof (split_length_append "/" first (String "/" rest)) as Happ.
  rewrite split_length_sep in Happ.
  pose proof (split_nonempty "/" rest). lia.
Qed.

Lemma split_append_sep (sep : ascii) (s t : string) :
  JS.includes s (String sep "") = false →
  JS.split sep (s +:+ String sep t) = s :: JS.split sep t.
Proof.
  induction s as [|c s IH]; intros H.
  - rewrite append_empty_l. simpl. by rewrite Ascii.eqb_refl.
  - simpl in H. apply orb_false_elim in H as [Hc Hs].
    rewrite append_cons. simpl.
    destruct (Ascii.eqb_spec c sep) as [->|_].
    + destruct (ascii_dec sep sep); [by destruct s|congruence].
    + by rewrite (IH Hs).
Qed.

(** ** The eligibility filter *)

Lemma second_slash_skipped (first rest : string) :
  shouldSkip ("/" +:+ first +:+ "/" +:+ rest) = true.
Proof.
  unfold shouldSkip.
  pose proof (split_two_slashes first rest) as H.
  apply Nat.ltb_lt in H. rewrite H. by rewrite !orb_true_r.
Qed.

Lemma ineligible_skipped (pathname : string) :
  ineligible pathname -> shouldSkip pathname = true.
Proof.
  intros [->|rest ->|rest ->|rest ->|rest ->|front ->|front ->|first rest ->].
  - reflexivity.
  - unfold shouldSkip. by rewrite startsWith_append, !orb_true_r.
  - unfold shouldSkip. by rewrite (startsWith_append "/dashboard"), !orb_true_r.
  - unfold shouldSkip. by rewrite (startsWith_append "/_next/"), !orb_true_r.
  - unfold shouldSkip. by rewrite (startsWith_append "/cloaked/"), !orb_true_r.
  - unfold shouldSkip. by rewrite (endsWith_append front ".png"), !orb_true_r.
  - unfold shouldSkip. by rewrite (endsWith_append front ".ico"), !orb_true_r.
  - apply second_slash_skipped.
Qed.

Section Eligibility.

Variable new_URL : string -> option string -> option URL.
Variable createRouteMatcher : list string -> NextRequest -> bool.
Variable isBot : string -> bool.
Variable getCountryContinentCode : string -> option string.
Variable NODE_ENV : option string.

Local Abbreviation run :=
  (resolveLinkAndLogAnalytics new_URL createRouteMatcher isBot
                              getCountryContinentCode NODE_ENV).

(** A request the filter skips ends at once, before any [fetch], and is
    let through: with [undefined] on a protected route, with
    [NextResponse.next()] otherwise. *)
Lemma skipped_request_ends (request : NextRequest) (u : URL) :
  new_URL (url request) None = Some u ->
  shouldSkip (pathname u) = true ->
  exists o, run request = Ended o /\ decision o = Some Continue.
Proof.
  intros Hu Hskip. unfold resolveLinkAndLogAnalytics.
  destruct (isProtectedRoute createRouteMatcher request).
  - eexists. split; reflexivity.
  - rewrite Hu, Hskip. eexists. split; reflexivity.
Qed.

(** C6. For every request whose path is exactly [/], or starts with
    [/api/], [/dashboard], [/_next/] or [/cloaked/], or ends with [.png]
    or [.ico], or has a second segment below the root, the middleware ends
    without issuing the resolver call and its decision is Continue. *)
Theorem ineligible_request_is_never_resolved (request : NextRequest) (u : URL) :
  new_URL (url request) None = Some u ->
  ineligible (pathname u) ->
  exists o, run request = Ended o /\ decision o = Some Continue.
Proof.
  intros Hu Hpath. apply (skipped_request_ends request u Hu).
  by apply ineligible_skipped.
Qed.

(** C10. For every alias with a trailing slash, [/alias/], splitting the
    path at the slashes gives three pieces, the last one the empty piece
    after the trailing slash; so the depth check takes the path for a
    nested one, the resolver is not called and the decision is Continue. *)
Theorem trailing_slash_alias_is_never_resolved
        (request : NextRequest) (u : URL) (alias : string) :
  new_URL (url request) None = Some u ->
  pathname u = "/" +:+ alias +:+ "/" ->
  JS.includes alias "/" = false ->
  JS.split "/" (pathname u) = [""; alias; ""] /\
  length (JS.split "/" (pathname u)) > 2 /\
  exists o, run request = Ended o /\ decision o = Some Continue.
Proof.
  intros Hu Hpath Halias.
  assert (JS.split "/" (pathname u) = [""; alias; ""]) as Hsplit.
  { rewrite Hpath.
    change ("/" +:+ alias +:+ "/") with (String "/" (alias +:+ String "/" "")).
    rewrite split_length_sep_pieces. by rewrite split_append_sep. }
  split; [exact Hsplit|]. split; [rewrite Hsplit; simpl; lia|].
  apply (skipped_request_ends request u Hu).
  rewrite Hpath. apply (second_slash_skipped alias "").
Qed.

End Eligibility.

(** ** The dispatcher *)

Section Dispatch.

Variable new_URL : string -> option string -> option URL.
Variable createRouteMatcher : list string -> NextRequest -> bool.
Variable isBot : string -> bool.
Variable getCountryContinentCode : string -> option string.
Variable NODE_ENV : option string.

Local Abbreviation run :=
  (resolveLinkAndLogAnalytics new_URL createRouteMatcher isBot
                              getCountryContinentCode NODE_ENV).

(** Whatever the request, a run that calls the resolver goes on with
    [dispatch]. *)
Lemma resume_is_dispatch (request : NextRequest) input init_headers resume :
  run request = Fetch input init_headers resume ->
  resume = dispatch new_URL request.
Proof.
  unfold resolveLinkAndLogAnalytics.
  destruct (isProtectedRoute createRouteMatcher request); [discriminate|].
  destruct (new_URL (url request) None) as [u|]; [|discriminate].
  destruct (shouldSkip (pathname u)); [discriminate|].
  destruct (JS.truthy _ && isBot _); [discriminate|].
  by intros [= _ _ <-].
Qed.

(** A request that is not protected, not skipped and not a bot's reaches
    the resolver call. *)
Lemma eligible_request_fetches (request : NextRequest) (u : URL) :
  isProtectedRoute createRouteMatcher request = false ->
  new_URL (url request) None = Some u ->
  shouldSkip (pathname u) = false ->
  JS.truthy (headers_get request "user-agent") &&
    isBot (JS.nullish (headers_get request "user-agent") "") = false ->
  run request =
  Fetch (resolverUrl NODE_ENV (origin u) (host u) (pathname u)
           (clientContext getCountryContinentCode request (host u)))
        [("user-agent", JS.nullish (headers_get request "user-agent") "");
         ("referer", JS.nullish (headers_get request "referer") "")]
        (dispatch new_URL request).
Proof.
  intros Hprotected Hu Hskip Hbot. unfold resolveLinkAndLogAnalytics.
  by rewrite Hprotected, Hu, Hskip, Hbot.
Qed.

(** C1, on the code. Of the three ways the resolver call can fail, only a
    status outside 200..299 is turned into Continue. When the [fetch]
    itself is rejected the middleware throws (a [TypeError]), and when a
    2xx body is not JSON it throws too (a [SyntaxError]): in both cases no
    decision is made. *)
Theorem resolver_failure_outcomes
        (request : NextRequest) input init_headers resume :
  run request = Fetch input init_headers resume ->
  (completion (resume fetch_rejected) = Throw TypeError /\
   decision (resume fetch_rejected) = None) /\
  (forall status, ok {| status := status; json := None |} = true ->
     completion (resume (fetch_resolved {| status := status; json := None |}))
     = Throw SyntaxError /\
     decision (resume (fetch_resolved {| status := status; json := None |})) = None) /\
  (forall response, ok response = false ->
     decision (resume (fetch_resolved response)) = Some Continue).
Proof.
  intros Hrun. rewrite (resume_is_dispatch _ _ _ _ Hrun).
  split; [by split|]. split.
  - intros status Hok. unfold dispatch, decision. rewrite Hok. by split.
  - intros response Hok. unfold dispatch. by rewrite Hok.
Qed.

Lemma validate_inr (request : NextRequest) (data_url : option JSON) (redirectUrl : string) :
  validate new_URL request data_url = inr redirectUrl ->
  exists validated,
    validates new_URL request data_url validated /\ redirectUrl = href validated.
Proof.
  unfold validate.
  destruct (new_URL (ToString data_url) (Some (url request))) as [parsed|] eqn:Hparsed.
  - destruct (String.eqb_spec (protocol parsed) "http:") as [Hhttp|_]; simpl.
    + intros [= <-]. exists parsed. split; [|done].
      apply parsed_http_or_https; auto.
    + destruct (String.eqb_spec (protocol parsed) "https:") as [Hhttps|_]; simpl;
        [|discriminate].
      intros [= <-]. exists parsed. split; [|done].
      apply parsed_http_or_https; auto.
  - destruct (new_URL ("https://" +:+ ToString data_url) None) as [fallback|] eqn:Hfallback;
      [|discriminate].
    destruct (String.eqb_spec (protocol fallback) "https:") as [Hhttps|_]; simpl;
      [|discriminate].
    intros [= <-]. exists fallback. split; [|done].
    by apply fallback_https.
Qed.

(** A response is a redirect or a rewrite only after validation. *)
Lemma dispatch_validated (request : NextRequest) (settled : FetchResult)
      (r : NextResponse) :
  completion (dispatch new_URL request settled) = Normal (Some r) ->
  r = NextResponse_next \/
  exists response data data_url validated,
    settled = fetch_resolved response /\ json response = Some data /\
    Get data "url" = Normal data_url /\
    validates new_URL request data_url validated /\
    (r = NextResponse_redirect (href validated) \/
     exists cloak,
       new_URL ("/cloaked/" +:+ JS.encodeURIComponent (href validated))
               (Some (url request)) = Some cloak /\
       r = NextResponse_rewrite cloak).
Proof.
  unfold dispatch. destruct settled as [|response]; [discriminate|].
  destruct (ok response); simpl; [|intros [= <-]; by left].
  destruct (json response) as [data|] eqn:Hjson; [|discriminate].
  destruct (Get data "url") as [data_url|e] eqn:Hurl; [|discriminate].
  destruct (ToBoolean data_url); simpl; [|intros [= <-]; by left].
  destruct (validate new_URL request data_url) as [early|redirectUrl] eqn:Hvalidate.
  - unfold validate in Hvalidate.
    repeat match type of Hvalidate with
           | context [match ?x with _ => _ end] => destruct x
           end; simplify_eq; simpl; intros [= <-]; by left.
  - apply validate_inr in Hvalidate as (validated & Hvalidated & ->).
    destruct (Get data "cloaking") as [cloaking|e]; [|discriminate].
    destruct (ToBoolean cloaking).
    + destruct (new_URL _ (Some (url request))) as [cloak|] eqn:Hcloak; [|discriminate].
      intros [= <-]. right. exists response, data, data_url, validated.
      repeat split; try done. right. by exists cloak.
    + intros [= <-]. right. exists response, data, data_url, validated.
      repeat split; try done. by left.
Qed.

(** C2. When the resolver's [url] parses, against the request's URL, to a
    URL whose scheme is neither [http] nor [https], the decision is
    Continue; and a decision is Redirect or Rewrite only for an address
    that validation accepted, whose scheme is [http] or [https]. *)
Theorem unsafe_scheme_is_never_followed (request : NextRequest) :
  (forall response data data_url parsed,
      json response = Some data ->
      Get data "url" = Normal data_url ->
      new_URL (ToString data_url) (Some (url request)) = Some parsed ->
      protocol parsed <> "http:" ->
      protocol parsed <> "https:" ->
      decision (dispatch new_URL request (fetch_resolved response)) = Some Continue) /\
  (forall settled d,
      decision (dispatch new_URL request settled) = Some d ->
      d <> Continue ->
      exists response data data_url validated,
        settled = fetch_resolved response /\ json response = Some data /\
        Get data "url" = Normal data_url /\
        validates new_URL request data_url validated /\
        (protocol validated = "http:" \/ protocol validated = "https:") /\
        (d = Redirect (href validated) \/
         exists cloak,
           new_URL ("/cloaked/" +:+ JS.encodeURIComponent (href validated))
                   (Some (url request)) = Some cloak /\
           d = Rewrite cloak)).
Proof.
  split.
  - intros response data data_url parsed Hjson Hurl Hparsed Hhttp Hhttps.
    unfold dispatch. destruct (ok response); simpl; [|done].
    rewrite Hjson, Hurl. destruct (ToBoolean data_url); simpl; [|done].
    unfold validate. rewrite Hparsed.
    destruct (String.eqb_spec (protocol parsed) "http:"); [done|].
    destruct (String.eqb_spec (protocol parsed) "https:"); [done|].
    reflexivity.
  - intros settled d Hd Hne. unfold decision in Hd.
    destruct (completion (dispatch new_URL request settled)) as [returned|e] eqn:Hc;
      [|discriminate].
    injection Hd as <-.
    destruct returned as [r|]; [|done].
    apply dispatch_validated in Hc as [->|Hc]; [done|].
    destruct Hc as (response & data & data_url & validated & -> & Hjson & Hurl & Hv & Hr).
    exists response, data, data_url, validated.
    repeat split; try done.
    + destruct Hv as [_ H|_ _ H]; [exact H|by right].
    + destruct Hr as [->|(cloak & Hcloak & ->)]; [by left|right; by exists cloak].
Qed.

End Dispatch.

(** ** The client context and the resolver call *)

Lemma encode_append (keep : ascii -> bool) (s t : string) :
  JS.encode keep (s +:+ t) = JS.encode keep s +:+ JS.encode keep t.
Proof.
  induction s as [|c s IH]; [reflexivity|].
  rewrite append_cons. simpl. by rewrite IH, append_assoc.
Qed.

Lemma or_string_nonempty (a : option string) (d : string) :
  d <> "" -> JS.or_string a d <> "".
Proof. intros Hd. by destruct a as [[|c s]|]. Qed.

Lemma or_string_truthy (a b : option string) (d : string) (c : ascii) (s : string) :
  a = Some (String c s) -> JS.or_string (JS.or a b) d = String c s.
Proof. by intros ->. Qed.

Section ClientContextFacts.

Variable new_URL : string -> option string -> option URL.
Variable createRouteMatcher : list string -> NextRequest -> bool.
Variable isBot : string -> bool.
Variable getCountryContinentCode : string -> option string.
Variable NODE_ENV : option string.

Local Abbreviation run :=
  (resolveLinkAndLogAnalytics new_URL createRouteMatcher isBot
                              getCountryContinentCode NODE_ENV).

(** The address of the resolver call of a run that makes one. *)
Lemma fetch_input (request : NextRequest) input init_headers resume :
  run request = Fetch input init_headers resume ->
  exists u,
    new_URL (url request) None = Some u /\
    input = resolverUrl NODE_ENV (origin u) (host u) (pathname u)
              (clientContext getCountryContinentCode request (host u)).
Proof.
  unfold resolveLinkAndLogAnalytics.
  destruct (isProtectedRoute createRouteMatcher request); [discriminate|].
  destruct (new_URL (url request) None) as [u|]; [|discriminate].
  destruct (shouldSkip (pathname u)); [discriminate|].
  destruct (JS.truthy _ && isBot _); [discriminate|].
  intros [= <- _ _]. by exists u.
Qed.

(** C4, on the code. A non-empty [geo] query parameter is the derived
    country whatever the host is, loopback or not, and whatever the
    headers say: the override is not gated on the host. *)
Theorem geo_override_wins_on_every_host
        (request : NextRequest) (host : string) (c : ascii) (s : string) :
  searchParams_get (searchParams request) "geo" = Some (String c s) ->
  ctx_country (clientContext getCountryContinentCode request host) = String c s.
Proof.
  intros Hgeo. unfold clientContext. simpl.
  by apply or_string_truthy.
Qed.

(** C7, on the code. For a request with none of [x-forwarded-for],
    [x-real-ip] and [cf-connecting-ip], the derived IP is [undefined], and
    the address of the resolver call ends with [&ip=undefined]: the
    parameter carries the nine letters the template prints, not the empty
    string. *)
Theorem no_ip_header_sends_undefined
        (request : NextRequest) input init_headers resume :
  headers request !! "x-forwarded-for" = None ->
  headers request !! "x-real-ip" = None ->
  headers request !! "cf-connecting-ip" = None ->
  run request = Fetch input init_headers resume ->
  getIpAddress request = None /\
  exists front, input = front +:+ "&ip=undefined".
Proof.
  intros Hxff Hreal Hcf Hrun.
  assert (getIpAddress request = None) as Hip.
  { unfold getIpAddress, headers_get. by rewrite Hxff, Hreal, Hcf. }
  split; [exact Hip|].
  apply fetch_input in Hrun as (u & _ & ->).
  unfold resolverUrl, clientContext. simpl. rewrite Hip. simpl.
  unfold JS.encodeURI.
  rewrite <- !append_assoc.
  match goal with
  | |- context [JS.encode ?keep ((?x +:+ "&ip=") +:+ "undefined")] =>
      rewrite (append_assoc x "&ip=" "undefined"), (encode_append keep x)
  end.
  eexists. reflexivity.
Qed.

End ClientContextFacts.

(** ** The continent of the client context *)

(** The continent of a country other than [Unknown] is what the helper
    returns for it, as it is. *)
Lemma continent_of_country (getCountryContinentCode : string -> option string)
      (request : NextRequest) (host : string) :
  let ctx := clientContext getCountryContinentCode request host in
  ctx_country ctx <> "" /\
  ctx_city ctx <> "" /\
  (ctx_country ctx = "Unknown" ->
   exists continent, ctx_continent ctx = Some continent /\ continent <> "") /\
  (ctx_country ctx <> "Unknown" ->
   ctx_continent ctx = getCountryContinentCode (ctx_country ctx)).
Proof.
  unfold clientContext. simpl.
  match goal with |- ?c <> "" /\ _ => set (country := c) end.
  assert (country <> "") as Hcountry
      by (apply or_string_nonempty; by destruct (_ || _)).
  split; [exact Hcountry|]. split; [apply or_string_nonempty; by destruct (_ || _)|].
  apply String.eqb_neq in Hcountry. rewrite Hcountry. cbn [negb andb].
  split.
  - intros ->. cbn [String.eqb Ascii.eqb Bool.eqb andb negb].
    eexists. split; [reflexivity|]. by destruct (_ || _).
  - intros Hknown. apply String.eqb_neq in Hknown. by rewrite Hknown.
Qed.

(** When the helper has nothing for the country, the resolver is called
    with the word the template prints for [undefined]. *)
Lemma undefined_continent_is_sent
      (new_URL : string -> option string -> option URL)
      (createRouteMatcher : list string -> NextRequest -> bool)
      (isBot : string -> bool) (getCountryContinentCode : string -> option string)
      (NODE_ENV : option string)
      (request : NextRequest) (override : string) input init_headers resume :
  searchParams_get (searchParams request) "geo" = Some override ->
  override <> "" -> override <> "Unknown" ->
  getCountryContinentCode override = None ->
  resolveLinkAndLogAnalytics new_URL createRouteMatcher isBot
                             getCountryContinentCode NODE_ENV request
  = Fetch input init_headers resume ->
  exists front back, input = front +:+ "&continent=undefined&ip=" +:+ back.
Proof.
  intros Hgeo Hfilled Hknown Hmissing Hrun.
  apply fetch_input in Hrun as (u & _ & ->).
  destruct (continent_of_country getCountryContinentCode request (host u))
    as (_ & _ & _ & Hcontinent).
  assert (ctx_country (clientContext getCountryContinentCode request (host u)) = override)
    as Hcountry.
  { destruct override as [|c s]; [done|]. unfold clientContext. simpl.
    by apply or_string_truthy. }
  rewrite Hcountry in Hcontinent. specialize (Hcontinent Hknown).
  rewrite Hmissing in Hcontinent.
  unfold resolverUrl. rewrite Hcontinent. cbn [JS.template].
  unfold JS.encodeURI.
  rewrite <- !append_assoc.
  match goal with
  | |- context [JS.encode ?keep ((((?x +:+ "&continent=") +:+ "undefined") +:+ "&ip=") +:+ ?y)] =>
      rewrite (encode_append keep _ y),
              (append_assoc (x +:+ "&continent=") "undefined" "&ip="),
              (append_assoc x "&continent=" ("undefined" +:+ "&ip=")),
              (encode_append keep x), append_assoc
  end.
  eexists _, _. reflexivity.
Qed.

Section ContinentLookup.

(** The static table of [@/lib/countries]. *)
Variable table : gmap string string.


End ContinentLookup.

(** ** The database accessor *)

Section Singleton.

Import Db.

Lemma get_from_reachable (target : Export) (prop : string) (s : State) :
  reachable s ->
  (get target prop s).1 = instance_of target /\
  reachable (get target prop s).2 /\
  pools_created (get target prop s).2 = 1 /\
  clients_created (get target prop s).2 =
    match target with
    | db => 1
    | connection => clients_created s
    end.
Proof.
  intros Hs. destruct Hs, target; repeat split; try reflexivity;
    first [exact pool_created | exact client_created].
Qed.

Lemma reads_cons (target : Export) (prop : string) (rest : list (Export * string))
      (s : State) :
  reads ((target, prop) :: rest) s =
  ((get target prop s).1 :: (reads rest (get target prop s).2).1,
   (reads rest (get target prop s).2).2).
Proof.
  simpl. unfold bind, ret.
  destruct (get target prop s) as [instance s1]. simpl.
  by destruct (reads rest s1) as [instances s2].
Qed.

Lemma reads_from_reachable (accesses : list (Export * string)) :
  forall s, reachable s ->
    reachable (reads accesses s).2 /\
    (forall i target prop,
        accesses !! i = Some (target, prop) ->
        (reads accesses s).1 !! i = Some (instance_of target)) /\
    pools_created (reads accesses s).2 =
      match accesses with
      | [] => pools_created s
      | _ :: _ => 1
      end /\
    clients_created (reads accesses s).2 =
      (if existsb reads_db accesses then 1 else clients_created s).
Proof.
  induction accesses as [|[target prop] rest IH]; intros s Hs.
  - repeat split; [exact Hs|]. intros i target prop Hi. by destruct i.
  - rewrite reads_cons. simpl.
    destruct (get_from_reachable target prop s Hs) as (Hinstance & Hs1 & Hpools & Hclients).
    destruct (IH _ Hs1) as (Hfinal & Hreads & Hpools' & Hclients').
    repeat split.
    + exact Hfinal.
    + intros [|i] target' prop' Hi; simpl in *.
      * injection Hi as <- <-. by rewrite Hinstance.
      * by apply Hreads in Hi.
    + rewrite Hpools'. by destruct rest.
    + rewrite Hclients', Hclients. unfold reads_db at 2. simpl.
      by destruct target, (existsb reads_db rest).
Qed.

(** C9. Loading the module creates neither pool nor client. Whatever
    properties a process then reads of the exported [connection] and [db],
    in whatever order: every read of [connection] goes to one and the same
    pool, every read of [db] to one and the same client, which is made over
    that pool; the pool exists from the first read on and the client from
    the first read of [db] on; and never more than one of each is
    created. *)
Theorem one_pool_and_one_client (accesses : list (Export * string)) :
  let instances := (reads accesses loaded).1 in
  let final := (reads accesses loaded).2 in
  (_connection loaded = None /\ _db loaded = None /\
   pools_created loaded = 0 /\ clients_created loaded = 0) /\
  (exists pool client,
      client_pool client = pool /\
      forall i target prop,
        accesses !! i = Some (target, prop) ->
        instances !! i = Some (match target with
                               | connection => pool_instance pool
                               | db => client_instance client
                               end)) /\
  pools_created final = (match accesses with [] => 0 | _ :: _ => 1 end) /\
  clients_created final = (if existsb reads_db accesses then 1 else 0) /\
  pools_created final <= 1 /\ clients_created final <= 1.
Proof.
  destruct (reads_from_reachable accesses loaded nothing_created)
    as (_ & Hreads & Hpools & Hclients).
  simpl. split; [done|]. split; [|split; [|split; [|split]]].
  - exists first_pool, first_client. split; [done|].
    intros i target prop Hi. rewrite (Hreads i target prop Hi). by destruct target.
  - exact Hpools.
  - exact Hclients.
  - rewrite Hpools. destruct accesses; simpl; lia.
  - rewrite Hclients. destruct (existsb _ _); simpl; lia.
Qed.

End Singleton.


(** ** Facts about the parser *)

Section ParserFacts.

Import WHATWG.

Variable unicode_ToASCII : string -> option string.

Lemma extends_refl (u : url) : extends u u.
Proof. by split. Qed.

Lemma extends_trans (u v w : url) : extends u v -> extends v w -> extends u w.
Proof. intros [Hs Hp] [Hs' Hp']. split; [congruence|auto]. Qed.

Lemma extends_set_fragment (u : url) f : extends u (set_fragment u f).
Proof. by split. Qed.

Lemma extends_set_authority (u : url) user pass h p :
  extends u (set_authority u user pass h p).
Proof. by split. Qed.

Lemma extends_append_segment (u : url) segment : extends u (append_segment u segment).
Proof. by split. Qed.

Lemma extends_shorten (u : url) : extends u (shorten u).
Proof.
  unfold shorten. destruct (url_path_of u) as [|[|only [|]]] eqn:Hpath;
    try apply extends_refl; try by split.
  destruct (_ && _); [apply extends_refl|by split].
Qed.

Lemma extends_end_segment (u : url) buffer at_slash :
  extends u (end_segment u buffer at_slash).
Proof.
  unfold end_segment.
  destruct (double_dot buffer).
  { destruct at_slash; [apply extends_shorten|].
    eapply extends_trans; [apply extends_shorten|apply extends_append_segment]. }
  destruct (single_dot buffer).
  { destruct at_slash; [apply extends_refl|apply extends_append_segment]. }
  repeat match goal with
         | |- context [match ?x with _ => _ end] => destruct x
         end; apply extends_append_segment.
Qed.

Lemma extends_fragment_state (u : url) rest : extends u (fragment_state u rest).
Proof. apply extends_set_fragment. Qed.

Lemma extends_query_state (u : url) rest : extends u (query_state u rest).
Proof.
  unfold query_state. destruct (span _ rest) as [text [|c fragment]]; by split.
Qed.

Lemma extends_path_state (rest : string) :
  forall u buffer, extends u (path_state u buffer rest).
Proof.
  induction rest as [|c rest IH]; intros u buffer; simpl.
  - apply extends_end_segment.
  - destruct (ch c "/" || is_special u && ch c "\").
    { eapply extends_trans; [apply extends_end_segment|apply IH]. }
    destruct (ch c "?").
    { eapply extends_trans; [apply extends_end_segment|apply extends_query_state]. }
    destruct (ch c "#").
    { eapply extends_trans; [apply extends_end_segment|apply extends_fragment_state]. }
    apply IH.
Qed.

Lemma extends_path_start_state (u : url) rest : extends u (path_start_state u rest).
Proof.
  unfold path_start_state. destruct rest as [|c rest].
  - destruct (is_special u); [apply extends_path_state|apply extends_refl].
  - repeat match goal with
           | |- context [if ?x then _ else _] => destruct x
           end;
      first [apply extends_path_state | apply extends_query_state
            | apply extends_fragment_state].
Qed.

Lemma extends_port_state (u u' : url) rest :
  port_state u rest = Some u' -> extends u u'.
Proof.
  unfold port_state. destruct (span JS.is_digit rest) as [digits after].
  repeat match goal with
         | |- context [if ?x then _ else _] => destruct x
         | |- context [match number_in ?r ?a ?s with _ => _ end] =>
             destruct (number_in r a s)
         end; try discriminate; intros [= <-];
    first [apply extends_path_start_state
          | eapply extends_trans;
            [apply extends_set_authority|apply extends_path_start_state]].
Qed.

Lemma extends_host_state (u u' : url) rest :
  host_state unicode_ToASCII u rest = Some u' -> extends u u'.
Proof.
  unfold host_state. destruct (host_text _ _ rest) as [buffer after].
  repeat match goal with
         | |- context [if ?x then _ else _] => destruct x
         | |- context [match host_parse ?f ?b ?o with _ => _ end] =>
             destruct (host_parse f b o)
         end; try discriminate; intros H;
    (eapply extends_trans; [apply extends_set_authority|]);
    first [by apply extends_port_state in H
          | injection H as <-; apply extends_path_start_state].
Qed.

Lemma extends_authority_state (u u' : url) rest :
  authority_state unicode_ToASCII u rest = Some u' -> extends u u'.
Proof.
  unfold authority_state. destruct (span _ rest) as [segment after].
  destruct (split_last "@" segment) as [[credentials host_part]|].
  - destruct (String.eqb host_part ""); [discriminate|].
    destruct (span _ credentials) as [user colon_password].
    intros H. apply extends_host_state in H.
    eapply extends_trans; [apply extends_set_authority|exact H].
  - apply extends_host_state.
Qed.

Lemma extends_file_host_state (u u' : url) rest :
  file_host_state unicode_ToASCII u rest = Some u' -> extends u u'.
Proof.
  unfold file_host_state. destruct (span _ rest) as [buffer after].
  repeat match goal with
         | |- context [if ?x then _ else _] => destruct x
         | |- context [match host_parse ?f ?b ?o with _ => _ end] =>
             destruct (host_parse f b o)
         end; try discriminate; intros [= <-];
    first [apply extends_path_state
          | eapply extends_trans;
            [apply extends_set_authority|apply extends_path_start_state]].
Qed.

Lemma file_state_scheme (u' : url) rest :
  file_state unicode_ToASCII None rest = Some u' ->
  url_scheme u' = "file" /\ has_opaque_path u' = false.
Proof.
  assert (forall u : url,
             extends (set_host (blank "file") (Some "")) u ->
             url_scheme u = "file" /\ has_opaque_path u = false) as Hfile.
  { intros u [Hs Hp]. split; [exact Hs|by apply Hp]. }
  unfold file_state, file_slash_state, is_file.
  destruct rest as [|c rest].
  - intros [= <-]. exact (Hfile _ (extends_path_state "" _ "")).
  - destruct (ch c "/" || ch c "\").
    + destruct rest as [|d rest].
      * intros [= <-]. exact (Hfile _ (extends_path_state "" _ "")).
      * destruct (ch d "/" || ch d "\").
        -- intros H. by apply extends_file_host_state, Hfile in H.
        -- intros [= <-]. exact (Hfile _ (extends_path_state (String d rest) _ "")).
    + intros [= <-]. exact (Hfile _ (extends_path_state (String c rest) _ "")).
Qed.

Lemma opaque_path_state_scheme (u : url) rest :
  url_scheme (opaque_path_state u rest) = url_scheme u.
Proof.
  unfold opaque_path_state. destruct (opaque_path_text rest) as [text [|c after]];
    [reflexivity|].
  destruct (ch c "?").
  - by destruct (extends_query_state (set_path u (opaque_path text)) after).
  - reflexivity.
Qed.

(** A URL parsed without a base has the scheme written in the input. *)
Lemma parsed_scheme (input : string) (b : url) :
  basic_URL_parse unicode_ToASCII input None = Some b ->
  exists scheme rest,
    scheme_start_state (remove_tab_newline (strip_trailing (strip_leading input)))
    = Some (scheme, rest) /\
    url_scheme b = scheme /\
    (is_special_scheme scheme = true -> has_opaque_path b = false).
Proof.
  unfold basic_URL_parse.
  destruct (scheme_start_state _) as [[scheme rest]|]; [|discriminate].
  intros H. exists scheme, rest. split; [reflexivity|].
  destruct (is_special_scheme scheme) eqn:Hspecial.
  - destruct (String.eqb scheme "file") eqn:Hfile.
    + apply String.eqb_eq in Hfile as ->.
      apply file_state_scheme in H as [-> ->]. by split.
    + apply extends_authority_state in H as [-> Hp]. split; [reflexivity|].
      intros _. by apply Hp.
  - assert (url_scheme b = scheme) as Hscheme; [|by split].
    destruct rest as [|c rest].
    + injection H as <-. apply opaque_path_state_scheme.
    + destruct (ch c "/").
      * destruct rest as [|d rest].
        -- injection H as <-. by destruct (extends_path_state "" (blank scheme) "").
        -- destruct (ch d "/").
           ++ by apply extends_authority_state in H as [-> _].
           ++ injection H as <-.
              by destruct (extends_path_state (String d rest) (blank scheme) "").
      * injection H as <-. apply opaque_path_state_scheme.
Qed.

(** The path of a parsed [http] or [https] URL is a list of segments. *)
Lemma parsed_web_url_has_segments (input : string) (b : url) :
  basic_URL_parse unicode_ToASCII input None = Some b ->
  url_scheme b = "http" \/ url_scheme b = "https" ->
  has_opaque_path b = false.
Proof.
  intros H Hweb. apply parsed_scheme in H as (scheme & rest & _ & <- & Hpath).
  apply Hpath. by destruct Hweb as [-> | ->].
Qed.

End ParserFacts.

(** ** The model on concrete inputs *)

Example forwarded_for_first_entry :
  getIpAddress {| url := "https://ishortn.ink/abc"; searchParams := [];
                  headers := {[ "x-forwarded-for" := "1.2.3.4, 5.6.7.8" ]} |}
  = Some "1.2.3.4".
Proof. vm_compute. reflexivity. Qed.

Example real_ip_after_empty_forwarded_for :
  getIpAddress {| url := "https://ishortn.ink/abc"; searchParams := [];
                  headers := {[ "x-forwarded-for" := ""; "x-real-ip" := "9.9.9.9" ]} |}
  = Some "9.9.9.9".
Proof. vm_compute. reflexivity. Qed.

Example geolocation_per_field :
  getGeolocation {| url := "https://ishortn.ink/abc"; searchParams := [];
                    headers := {[ "cloudfront-viewer-country" := "DE";
                                  "x-geo-city" := "Berlin"; "cf-ipcity" := "" ]} |}
  = {| country := Some "DE"; city := Some "Berlin" |}.
Proof. vm_compute. reflexivity. Qed.

Example parse_normalises :
  option_map href (Sample.new_URL "HTTP://EXAMPLE.com:80/a/../b/./c?x y#z" None)
  = Some "http://example.com/b/c?x%20y#z".
Proof. vm_compute. reflexivity. Qed.

Example parse_protocol_relative :
  option_map href (Sample.new_URL "//evil.example/x" (Some "https://ishortn.ink/abc"))
  = Some "https://evil.example/x".
Proof. vm_compute. reflexivity. Qed.

Example parse_numeric_host :
  option_map host (Sample.new_URL "http://0x7f.1:8080/" None) = Some "127.0.0.1:8080".
Proof. vm_compute. reflexivity. Qed.

Example parse_ipv6_host :
  option_map host (Sample.new_URL "http://[2001:DB8:0:0:1:0:0:1]/" None)
  = Some "[2001:db8::1:0:0:1]".
Proof. vm_compute. reflexivity. Qed.

Example parse_rejects_space_in_host :
  Sample.new_URL "https://exa mple.com" (Some "https://ishortn.ink/abc") = None.
Proof. vm_compute. reflexivity. Qed.

(** The only way into the fallback of lines 137 to 149 is an address the
    first parse rejects, and then [https://] in front of it makes its
    scheme the host. *)
Example fallback_on_a_rejected_address :
  decision (dispatch Sample.new_URL Sample.request_abc
                     (resolver_says (JObject [("url", JString "https://exa mple.com")])))
  = Some (Redirect "https://https//exa%20mple.com").
Proof. vm_compute. reflexivity. Qed.

(** ** The examples of the specification on the code *)

(** The request of [/abc] reaches the resolver call, with this address and
    these headers. *)
Lemma request_abc_fetches :
  Sample.middleware Sample.request_abc =
  Fetch "https://ishortn.ink/api/link?domain=ishortn.ink&alias=/abc&country=Unknown&city=Unknown&continent=Unknown&ip=undefined"
        [("user-agent", ""); ("referer", "")]
        (dispatch Sample.new_URL Sample.request_abc).
Proof.
  unfold Sample.middleware.
  rewrite (eligible_request_fetches _ _ _ _ _ Sample.request_abc url_abc);
    [|by vm_compute..].
  f_equal.
Qed.

(** The resolver call fails for the request of [/abc]: a rejected [fetch]
    and a 200 that is not JSON both end in a thrown error, a 503 in
    Continue. *)
Lemma resolver_failure_outcomes_witness :
  exists input init_headers resume,
    Sample.middleware Sample.request_abc = Fetch input init_headers resume /\
    completion (resume fetch_rejected) = Throw TypeError /\
    completion (resume (fetch_resolved {| status := 200; json := None |}))
    = Throw SyntaxError /\
    decision (resume (fetch_resolved {| status := 503; json := None |})) = Some Continue.
Proof.
  eexists _, _, _. split; [exact request_abc_fetches|].
  destruct (resolver_failure_outcomes _ _ _ _ _ _ _ _ _ request_abc_fetches)
    as ((Hrejected & _) & Hbody & Hstatus).
  split; [exact Hrejected|]. split.
  - apply Hbody. reflexivity.
  - apply Hstatus. reflexivity.
Defined.

(** [javascript:alert(1)] and a [data:] page are let through, not
    followed. *)
Lemma unsafe_scheme_is_never_followed_witness :
  decision (dispatch Sample.new_URL Sample.request_abc (resolver_says script_answer))
  = Some Continue /\
  decision (dispatch Sample.new_URL Sample.request_abc (resolver_says data_answer))
  = Some Continue.
Proof.
  destruct (unsafe_scheme_is_never_followed Sample.new_URL Sample.request_abc)
    as [Hunsafe _].
  split.
  - eapply (Hunsafe _ script_answer (Some (JString "javascript:alert(1)")));
      [reflexivity | reflexivity | lazy; reflexivity | discriminate | discriminate].
  - eapply (Hunsafe _ data_answer
              (Some (JString "data:text/html,<script>alert(1)</script>")));
      [reflexivity | reflexivity | lazy; reflexivity | discriminate | discriminate].
Defined.

Lemma ineligible_request_is_never_resolved_witness :
  exists o, Sample.middleware request_api = Ended o /\ decision o = Some Continue.
Proof.
  eapply (ineligible_request_is_never_resolved Sample.new_URL).
  - lazy. reflexivity.
  - apply api_path with (rest := "link"). reflexivity.
Defined.

Lemma trailing_slash_alias_is_never_resolved_witness :
  exists o,
    Sample.middleware request_trailing_slash = Ended o /\ decision o = Some Continue.
Proof.
  eapply (trailing_slash_alias_is_never_resolved Sample.new_URL _ _ _ _
            request_trailing_slash _ "abc").
  - lazy. reflexivity.
  - reflexivity.
  - reflexivity.
Defined.

(** On [ishortn.ink], with Cloudflare saying FR, [?geo=US] makes the
    country US. *)
Lemma geo_override_wins_on_every_host_witness :
  (JS.includes "ishortn.ink" "localhost" || JS.includes "ishortn.ink" "127.0.0.1") = false /\
  country (getGeolocation request_geo_override) = Some "FR" /\
  ctx_country (clientContext Sample.getCountryContinentCode request_geo_override
                             "ishortn.ink") = "US".
Proof.
  split; [reflexivity|]. split; [vm_compute; reflexivity|].
  apply (geo_override_wins_on_every_host Sample.getCountryContinentCode
           request_geo_override "ishortn.ink" "U" "S").
  reflexivity.
Defined.

Lemma no_ip_header_sends_undefined_witness :
  exists input init_headers resume,
    Sample.middleware Sample.request_abc = Fetch input init_headers resume /\
    getIpAddress Sample.request_abc = None /\
    exists front, input = front +:+ "&ip=undefined".
Proof.
  eexists _, _, _. split; [exact request_abc_fetches|].
  apply (no_ip_header_sends_undefined _ _ _ _ _ Sample.request_abc _ _ _
           eq_refl eq_refl eq_refl request_abc_fetches).
Defined.

Lemma request_unlisted_fetches :
  resolveLinkAndLogAnalytics Sample.new_URL Sample.createRouteMatcher Sample.isBot
                             (Countries.getCountryContinentCode Sample.continents) None
                             request_unlisted
  = Fetch "https://ishortn.ink/api/link?domain=ishortn.ink&alias=/abc&country=ZZ&city=Unknown&continent=undefined&ip=undefined"
          [("user-agent", ""); ("referer", "")]
          (dispatch Sample.new_URL request_unlisted).
Proof.
  rewrite (eligible_request_fetches _ _ _ _ _ request_unlisted url_unlisted);
    [|by vm_compute..].
  f_equal.
Qed.


(** C3, on the code. For the request of [/abc] and the resolver's answer
    [{ url: "example.com/page" }], parsing against the request's URL does not
    fail: the address is taken for a relative one and resolved on the
    short-link host itself. The fallback that puts [https://] in front is
    not reached, and the decision is Redirect to
    [https://ishortn.ink/example.com/page], not to
    [https://example.com/page]. *)
Theorem scheme_less_url_resolves_against_request
        (unicode_ToASCII : string -> option string) :
  (exists parsed,
      WHATWG.new_URL unicode_ToASCII "example.com/page" (Some (url Sample.request_abc))
      = Some parsed /\
      href parsed = "https://ishortn.ink/example.com/page") /\
  decision (dispatch (WHATWG.new_URL unicode_ToASCII) Sample.request_abc
                     (resolver_says scheme_less_answer))
  = Some (Redirect "https://ishortn.ink/example.com/page") /\
  decision (dispatch (WHATWG.new_URL unicode_ToASCII) Sample.request_abc
                     (resolver_says scheme_less_answer))
  <> Some (Redirect "https://example.com/page").
Proof.
  split; [|split].
  - eexists. split; [vm_compute; reflexivity|reflexivity].
  - vm_compute. reflexivity.
  - vm_compute. discriminate.
Qed.

(** C5 as stated fails: for the request of [/abc] and the answer
    [{ url: "https://example.com", cloaking: true }] the decision is a
    Rewrite, but its path ends in [%2F], the encoded root slash of the
    serialised address [https://example.com/]. *)
Lemma cloaked_path_is_not_the_bare_origin :
  exists cloak,
    decision (dispatch Sample.new_URL Sample.request_abc (resolver_says cloaking_answer))
    = Some (Rewrite cloak) /\
    pathname cloak = "/cloaked/https%3A%2F%2Fexample.com%2F" /\
    pathname cloak <> "/cloaked/https%3A%2F%2Fexample.com".
Proof.
  eexists. split; [vm_compute; reflexivity|]. split; [reflexivity|discriminate].
Qed.

(** The steps of [dispatch] that end in a rewrite. *)
Lemma dispatch_rewrites (new_URL : string -> option string -> option URL)
      (request : NextRequest) (response : Response) (data : JSON)
      (data_url cloaking : option JSON) (validated cloak : URL) :
  ok response = true ->
  json response = Some data ->
  Get data "url" = Normal data_url ->
  ToBoolean data_url = true ->
  new_URL (ToString data_url) (Some (url request)) = Some validated ->
  protocol validated = "https:" ->
  Get data "cloaking" = Normal cloaking ->
  ToBoolean cloaking = true ->
  new_URL ("/cloaked/" +:+ JS.encodeURIComponent (href validated)) (Some (url request))
  = Some cloak ->
  dispatch new_URL request (fetch_resolved response)
  = returns (NextResponse_rewrite cloak).
Proof.
  intros Hok Hjson Hurl Htruthy Hvalidated Hprotocol Hcloaking Hcloaked Hcloak.
  unfold dispatch, validate.
  rewrite Hok, Hjson, Hurl, Htruthy, Hvalidated, Hprotocol. simpl.
  by rewrite Hcloaking, Hcloaked, Hcloak.
Qed.

Section Cloaking.

Variable unicode_ToASCII : string -> option string.
Variable request : NextRequest.
Variable b : WHATWG.url.

Hypothesis request_url_parses :
  WHATWG.basic_URL_parse unicode_ToASCII (url request) None = Some b.
Hypothesis request_url_is_web :
  WHATWG.url_scheme b = "http" \/ WHATWG.url_scheme b = "https".

Lemma example_com_validated :
  WHATWG.new_URL unicode_ToASCII "https://example.com" (Some (url request))
  = Some url_example_com.
Proof.
  unfold WHATWG.new_URL. rewrite request_url_parses.
  destruct b as [scheme user pass h p path q f]. simpl in request_url_is_web.
  destruct request_url_is_web as [-> | ->]; vm_compute; reflexivity.
Qed.

Lemma cloak_route_parsed :
  exists cloak,
    WHATWG.new_URL unicode_ToASCII "/cloaked/https%3A%2F%2Fexample.com%2F"
                   (Some (url request)) = Some cloak /\
    pathname cloak = "/cloaked/https%3A%2F%2Fexample.com%2F".
Proof.
  pose proof (parsed_web_url_has_segments _ _ _ request_url_parses request_url_is_web)
    as Hsegments.
  unfold WHATWG.new_URL. rewrite request_url_parses.
  destruct b as [scheme user pass h p [opaque|segments] q f]; [discriminate|].
  simpl in request_url_is_web.
  destruct request_url_is_web as [-> | ->]; eexists; (split; [reflexivity|]);
    vm_compute; reflexivity.
Qed.

(** C5, amended. For a request whose URL is an [http] or [https] one and
    the resolver's answer [{ url: "https://example.com", cloaking: true }],
    the validated address is the serialised [https://example.com/], with
    the root path the parser gives it, and the decision is Rewrite to the
    path [/cloaked/https%3A%2F%2Fexample.com%2F]: that address
    percent-encoded as one segment under [/cloaked/]. *)
Theorem cloaked_rewrite_encodes_the_serialised_url :
  WHATWG.new_URL unicode_ToASCII "https://example.com" (Some (url request))
  = Some url_example_com /\
  JS.encodeURIComponent (href url_example_com) = "https%3A%2F%2Fexample.com%2F" /\
  exists cloak,
    dispatch (WHATWG.new_URL unicode_ToASCII) request (resolver_says cloaking_answer)
    = returns (NextResponse_rewrite cloak) /\
    decision (dispatch (WHATWG.new_URL unicode_ToASCII) request
                       (resolver_says cloaking_answer)) = Some (Rewrite cloak) /\
    pathname cloak = "/cloaked/https%3A%2F%2Fexample.com%2F".
Proof.
  split; [exact example_com_validated|]. split; [reflexivity|].
  destruct cloak_route_parsed as (cloak & Hcloak & Hpath).
  exists cloak.
  assert (dispatch (WHATWG.new_URL unicode_ToASCII) request (resolver_says cloaking_answer)
          = returns (NextResponse_rewrite cloak)) as Hdispatch.
  { eapply (dispatch_rewrites _ request _ cloaking_answer
              (Some (JString "https://example.com")) (Some (JBool true))
              url_example_com cloak); try reflexivity.
    - exact example_com_validated.
    - exact Hcloak. }
  split; [exact Hdispatch|]. split; [by rewrite Hdispatch|exact Hpath].
Qed.

End Cloaking.

Lemma cloaked_rewrite_encodes_the_serialised_url_witness :
  exists cloak,
    decision (dispatch Sample.new_URL Sample.request_abc (resolver_says cloaking_answer))
    = Some (Rewrite cloak) /\
    pathname cloak = "/cloaked/https%3A%2F%2Fexample.com%2F".
Proof.
  destruct (cloaked_rewrite_encodes_the_serialised_url Sample.unicode_ToASCII
              Sample.request_abc
              (WHATWG.set_path
                 (WHATWG.set_host (WHATWG.blank "https") (Some "ishortn.ink"))
                 (WHATWG.path_segments ["abc"])))
    as (_ & _ & cloak & _ & Hdecision & Hpath).
  - vm_compute. reflexivity.
  - right. reflexivity.
  - exists cloak. split; [exact Hdecision|exact Hpath].
Defined.

(** * Further properties of the code *)

(** ** The header readers *)

(** A piece without the separator is left whole. *)
Lemma split_without_sep (sep : ascii) (s : string) :
  JS.includes s (String sep "") = false -> JS.split sep s = [s].
Proof.
  induction s as [|c s IH]; [reflexivity|].
  simpl. intros H. apply orb_false_elim in H as [Hc Hs].
  destruct (ascii_dec sep c) as [->|Hne].
  - by destruct s.
  - destruct (Ascii.eqb_spec c sep) as [->|_]; [congruence|].
    by rewrite (IH Hs).
Qed.

Lemma white_space_length_white (c : ascii) (s : string) :
  white c = true -> JS.white_space_length (String c s) = 1.
Proof. unfold white, JS.white_space_length. simpl. by intros ->. Qed.

Lemma trimStart_upto_S (fuel : nat) (s : string) :
  JS.trimStart_upto (S fuel) s =
  match JS.white_space_length s with
  | O => s
  | n => JS.trimStart_upto fuel (JS.drop n s)
  end.
Proof. reflexivity. Qed.

Lemma trimStart_upto_white (fuel : nat) :
  forall s, String.length s <= fuel -> WHATWG.all_chars white s = true ->
            JS.trimStart_upto fuel s = "".
Proof.
  induction fuel as [|fuel IH]; intros [|c s] Hlen Hwhite; try reflexivity.
  - simpl in Hlen. lia.
  - simpl in Hlen, Hwhite. apply andb_prop in Hwhite as [Hc Hs].
    rewrite trimStart_upto_S, (white_space_length_white c s Hc).
    change (JS.drop 1 (String c s)) with s.
    apply IH; [lia|exact Hs].
Qed.

(** White space alone trims to nothing. *)
Lemma trim_white (s : string) : WHATWG.all_chars white s = true -> JS.trim s = "".
Proof.
  intros H. unfold JS.trim, JS.trimStart.
  by rewrite (trimStart_upto_white _ s (le_n _) H).
Qed.

(** The first piece of a list of entries: what stands before the first
    separator, or the whole when there is none. *)
Lemma split_first (sep : ascii) (first tail : string) :
  JS.includes first (String sep "") = false ->
  tail = "" \/ (exists rest, tail = String sep rest) ->
  exists others, JS.split sep (first +:+ tail) = first :: others.
Proof.
  intros Hfirst [->|[rest ->]].
  - exists []. replace (first +:+ "") with first.
    + by apply split_without_sep.
    + clear. induction first as [|c s IH]; [reflexivity|].
      by rewrite append_cons, <- IH.
  - eexists. by apply split_append_sep.
Qed.

Lemma truthy_nonempty (s : string) : s <> "" -> JS.truthy (Some s) = true.
Proof. by destruct s. Qed.

Lemma forwarded_for_read (request : NextRequest) (first tail : string) :
  headers request !! "x-forwarded-for" = Some (first +:+ tail) ->
  first +:+ tail <> "" ->
  JS.includes first "," = false ->
  tail = "" \/ (exists rest, tail = String "," rest) ->
  getIpAddress request = Some (JS.trim first).
Proof.
  intros Hheader Hnonempty Hfirst Htail.
  unfold getIpAddress, headers_get. rewrite Hheader.
  rewrite (truthy_nonempty _ Hnonempty). simpl.
  by destruct (split_first "," first tail Hfirst Htail) as [others ->].
Qed.

(** X1. When [x-forwarded-for] is not empty, the derived IP is its first
    entry (what stands before the first comma, or the whole value) with the
    white space around it trimmed, whatever [x-real-ip] and
    [cf-connecting-ip] say. *)
Theorem forwarded_for_first_entry_wins (request : NextRequest) (first tail : string) :
  headers request !! "x-forwarded-for" = Some (first +:+ tail) ->
  first +:+ tail <> "" ->
  JS.includes first "," = false ->
  tail = "" \/ (exists rest, tail = String "," rest) ->
  getIpAddress request = Some (JS.trim first).
Proof. apply forwarded_for_read. Qed.

Lemma forwarded_for_first_entry_wins_witness :
  getIpAddress {| url := "https://ishortn.ink/abc"; searchParams := [];
                  headers := {[ "x-forwarded-for" := " 1.2.3.4 , 5.6.7.8";
                                "x-real-ip" := "9.9.9.9" ]} |}
  = Some "1.2.3.4".
Proof.
  apply (forwarded_for_first_entry_wins _ " 1.2.3.4 " ", 5.6.7.8").
  - vm_compute. reflexivity.
  - discriminate.
  - reflexivity.
  - right. by exists " 5.6.7.8".
Defined.

Lemma includes_char_cons (c sep : ascii) (s : string) :
  JS.includes (String c s) (String sep "") =
  (if ascii_dec sep c then true else false) || JS.includes s (String sep "").
Proof.
  change (JS.includes (String c s) (String sep ""))
    with (String.prefix (String sep "") (String c s) || JS.includes s (String sep "")).
  f_equal. cbn [String.prefix]. destruct (ascii_dec sep c); by destruct s.
Qed.

Lemma white_has_no_comma (s : string) :
  WHATWG.all_chars white s = true -> JS.includes s "," = false.
Proof.
  induction s as [|c s IH]; [reflexivity|].
  intros H. change (white c && WHATWG.all_chars white s = true) in H.
  apply andb_prop in H as [Hc Hs].
  rewrite includes_char_cons, (IH Hs).
  destruct (ascii_dec "," c) as [<-|_]; [discriminate Hc|reflexivity].
Qed.

Lemma or_none_not_empty (a : option string) : JS.or a None <> Some "".
Proof. by destruct a as [[|c s]|]. Qed.

Section HeaderReaders.

Variable new_URL : string -> option string -> option URL.
Variable createRouteMatcher : list string -> NextRequest -> bool.
Variable isBot : string -> bool.
Variable getCountryContinentCode : string -> option string.
Variable NODE_ENV : option string.

Local Abbreviation run :=
  (resolveLinkAndLogAnalytics new_URL createRouteMatcher isBot
                              getCountryContinentCode NODE_ENV).

(** X2. When the first entry of [x-forwarded-for] is blank (the header
    starts with a comma, or with white space and a comma), the derived IP is
    the empty string, not [undefined]: the other IP headers are not read,
    and the resolver call ends with an empty [ip] parameter. *)
Theorem blank_first_entry_is_an_empty_ip
        (request : NextRequest) (blank rest : string) input init_headers resume :
  headers request !! "x-forwarded-for" = Some (blank +:+ String "," rest) ->
  WHATWG.all_chars white blank = true ->
  run request = Fetch input init_headers resume ->
  getIpAddress request = Some "" /\
  exists front, input = front +:+ "&ip=".
Proof.
  intros Hheader Hblank Hrun.
  assert (getIpAddress request = Some "") as Hip.
  { rewrite <- (trim_white blank Hblank).
    apply (forwarded_for_read request blank (String "," rest) Hheader).
    - by destruct blank.
    - by apply white_has_no_comma.
    - right. by exists rest. }
  split; [exact Hip|].
  apply fetch_input in Hrun as (u & _ & ->).
  unfold resolverUrl, clientContext. simpl. rewrite Hip. simpl.
  unfold JS.encodeURI.
  rewrite <- !append_assoc.
  match goal with
  | |- context [JS.encode ?keep ((?x +:+ "&ip=") +:+ "")] =>
      rewrite (encode_append keep (x +:+ "&ip=") ""), (encode_append keep x "&ip=")
  end.
  eexists. rewrite append_assoc. reflexivity.
Qed.

End HeaderReaders.

Lemma request_blank_forwarded_fetches :
  Sample.middleware request_blank_forwarded =
  Fetch "https://ishortn.ink/api/link?domain=ishortn.ink&alias=/abc&country=Unknown&city=Unknown&continent=Unknown&ip="
        [("user-agent", ""); ("referer", "")]
        (dispatch Sample.new_URL request_blank_forwarded).
Proof.
  unfold Sample.middleware.
  rewrite (eligible_request_fetches _ _ _ _ _ request_blank_forwarded url_abc);
    [|by vm_compute..].
  f_equal.
Qed.

Lemma blank_first_entry_is_an_empty_ip_witness :
  getIpAddress request_blank_forwarded = Some "" /\
  exists front,
    "https://ishortn.ink/api/link?domain=ishortn.ink&alias=/abc&country=Unknown&city=Unknown&continent=Unknown&ip="
    = front +:+ "&ip=".
Proof.
  assert (headers request_blank_forwarded !! "x-forwarded-for"
          = Some (" " +:+ String "," " 5.6.7.8")) as Hheader
      by (vm_compute; reflexivity).
  exact (blank_first_entry_is_an_empty_ip _ _ _ _ _ _ _ _ _ _ _
           Hheader eq_refl request_blank_forwarded_fetches).
Defined.

(** X3. Each field of the geolocation the middleware reads is either
    [undefined] or a non-empty string: an empty header never comes through
    as an empty country or city. *)
Theorem geolocation_fields_are_never_empty (request : NextRequest) :
  country (getGeolocation request) <> Some "" /\
  city (getGeolocation request) <> Some "".
Proof. split; apply or_none_not_empty. Qed.

(** X4. The geolocation route reports the IP, the country and the city
    that the middleware derives from the same request, and leaves a
    property out where the middleware has [undefined]. *)
Theorem geo_route_agrees_with_middleware (request : NextRequest) :
  Get (GeoRoute.GET request) "ip" = Normal (option_map JString (getIpAddress request)) /\
  Get (GeoRoute.GET request) "country"
  = Normal (option_map JString (country (getGeolocation request))) /\
  Get (GeoRoute.GET request) "city"
  = Normal (option_map JString (city (getGeolocation request))).
Proof.
  unfold GeoRoute.GET, GeoRoute.getGeolocation, getGeolocation.
  change (GeoRoute.getIpAddress request) with (getIpAddress request).
  cbn [GeoRoute.country GeoRoute.city GeoRoute.region GeoRoute.latitude
       GeoRoute.longitude country city].
  repeat match goal with
         | |- context [GeoRoute.property _ ?v] =>
             lazymatch v with
             | Some _ => fail
             | None => fail
             | _ => generalize v; intros [?|]
             end
         end; repeat split; reflexivity.
Qed.

(** X5. In the body the geolocation route returns, every property other
    than [ip] is a non-empty string; what the headers do not give is left
    out, never sent as empty or null. *)
Theorem geo_route_sends_no_empty_field
        (request : NextRequest) (members : list (string * JSON))
        (key : string) (value : JSON) :
  GeoRoute.GET request = JObject members ->
  (key, value) ∈ members ->
  key <> "ip" ->
  exists s, value = JString s /\ s <> "".
Proof.
  intros [= <-] Hin Hkey.
  assert (forall k v, (key, value) ∈ GeoRoute.property k (JS.or v None) ->
                      exists s, value = JString s /\ s <> "") as Hfield.
  { intros k v H. unfold GeoRoute.property in H.
    destruct (JS.or v None) as [s|] eqn:Hor; [|by apply elem_of_nil in H].
    apply list_elem_of_singleton in H as [= _ ->]. exists s. split; [done|].
    intros ->. by apply (or_none_not_empty v). }
  rewrite !elem_of_app in Hin.
  destruct Hin as [H|[H|[H|[H|[H|H]]]]]; try by apply Hfield in H.
  unfold GeoRoute.property in H.
  destruct (GeoRoute.getIpAddress request); [|by apply elem_of_nil in H].
  by apply list_elem_of_singleton in H as [= -> _].
Qed.

Lemma geo_route_sends_no_empty_field_witness :
  exists s, JString "Paris" = JString s /\ s <> "".
Proof.
  apply (geo_route_sends_no_empty_field
           {| url := "https://ishortn.ink/api/geo"; searchParams := [];
              headers := {[ "cf-ipcity" := "Paris"; "cf-ipcountry" := "" ]} |}
           [("city", JString "Paris")] "city").
  - vm_compute. reflexivity.
  - apply list_elem_of_singleton. reflexivity.
  - discriminate.
Defined.

(** ** The client context *)

Lemma or_falsy (a b : option string) : JS.truthy a = false -> JS.or a b = b.
Proof. unfold JS.or. by intros ->. Qed.

(** X6. On a loopback host, with no [geo] override and no header giving a
    country or a city, the country is [US] and the city [San Francisco];
    the continent is then what [getCountryContinentCode] says of [US], not
    the fixed [NA], which the code keeps for a country that reads
    [Unknown]. *)
Theorem loopback_defaults
        (getCountryContinentCode : string -> option string)
        (request : NextRequest) (host : string) :
  JS.includes host "localhost" = true \/ JS.includes host "127.0.0.1" = true ->
  JS.truthy (searchParams_get (searchParams request) "geo") = false ->
  country (getGeolocation request) = None ->
  city (getGeolocation request) = None ->
  ctx_country (clientContext getCountryContinentCode request host) = "US" /\
  ctx_city (clientContext getCountryContinentCode request host) = "San Francisco" /\
  ctx_continent (clientContext getCountryContinentCode request host)
  = getCountryContinentCode "US".
Proof.
  intros Hhost Hgeo Hcountry Hcity. unfold clientContext.
  cbn [ctx_country ctx_city ctx_continent].
  rewrite (or_falsy _ _ Hgeo), Hcountry, Hcity.
  destruct Hhost as [-> | ->]; by rewrite ?orb_true_r.
Qed.

Lemma loopback_defaults_witness :
  let request := {| url := "http://localhost:3000/abc"; searchParams := [("geo", "")];
                    headers := {[ "cf-ipcountry" := "" ]} |} in
  ctx_country (clientContext Sample.getCountryContinentCode request "localhost:3000") = "US" /\
  ctx_city (clientContext Sample.getCountryContinentCode request "localhost:3000")
  = "San Francisco" /\
  ctx_continent (clientContext Sample.getCountryContinentCode request "localhost:3000")
  = Sample.getCountryContinentCode "US".
Proof.
  apply (loopback_defaults Sample.getCountryContinentCode
           {| url := "http://localhost:3000/abc"; searchParams := [("geo", "")];
              headers := {[ "cf-ipcountry" := "" ]} |} "localhost:3000").
  - left. reflexivity.
  - reflexivity.
  - vm_compute. reflexivity.
  - vm_compute. reflexivity.
Defined.

(** X7. On any other host, with no [geo] override and no header giving a
    country or a city, country, city and continent are all [Unknown], and
    [getCountryContinentCode] has no say in it. *)
Theorem unknown_defaults
        (getCountryContinentCode : string -> option string)
        (request : NextRequest) (host : string) :
  JS.includes host "localhost" = false ->
  JS.includes host "127.0.0.1" = false ->
  JS.truthy (searchParams_get (searchParams request) "geo") = false ->
  country (getGeolocation request) = None ->
  city (getGeolocation request) = None ->
  clientContext getCountryContinentCode request host
  = {| ctx_ip := getIpAddress request; ctx_country := "Unknown";
       ctx_city := "Unknown"; ctx_continent := Some "Unknown" |}.
Proof.
  intros Hlocalhost Hloopback Hgeo Hcountry Hcity. unfold clientContext.
  by rewrite (or_falsy _ _ Hgeo), Hcountry, Hcity, Hlocalhost, Hloopback.
Qed.

Lemma unknown_defaults_witness :
  clientContext Sample.getCountryContinentCode Sample.request_abc "ishortn.ink"
  = {| ctx_ip := None; ctx_country := "Unknown"; ctx_city := "Unknown";
       ctx_continent := Some "Unknown" |}.
Proof.
  apply (unknown_defaults Sample.getCountryContinentCode Sample.request_abc "ishortn.ink");
    vm_compute; reflexivity.
Defined.

(** ** Who reaches the resolver *)

Lemma prefix_inv (p : string) :
  forall s, String.prefix p s = true -> exists rest, s = p +:+ rest.
Proof.
  induction p as [|a p IH]; intros s H.
  - by exists s.
  - destruct s as [|c s]; [discriminate|].
    cbn [String.prefix] in H. destruct (ascii_dec a c) as [->|_]; [|discriminate].
    destruct (IH s H) as [rest ->]. by exists rest.
Qed.

Lemma endsWith_inv (p : string) :
  forall s, JS.endsWith s p = true -> exists front, s = front +:+ p.
Proof.
  induction s as [|c s IH]; rewrite endsWith_unfold; intros H.
  - rewrite orb_false_r in H. apply String.eqb_eq in H as <-. by exists "".
  - apply orb_prop in H as [H|H].
    + apply String.eqb_eq in H as <-. by exists "".
    + destruct (IH H) as [front ->]. by exists (String c front).
Qed.

Lemma includes_unfold (s p : string) :
  JS.includes s p =
  String.prefix p s || match s with
                       | EmptyString => false
                       | String _ s' => JS.includes s' p
                       end.
Proof. by destruct s. Qed.

Lemma includes_append (front p rest : string) :
  JS.includes (front +:+ p +:+ rest) p = true.
Proof.
  induction front as [|c front IH]; rewrite includes_unfold.
  - rewrite append_empty_l.
    pose proof (startsWith_append p rest) as H. unfold JS.startsWith in H.
    by rewrite H.
  - rewrite append_cons, IH. apply orb_true_r.
Qed.

(** The filter has nothing against the path of a plain alias. *)
Lemma plain_alias_not_skipped (alias : string) :
  plain_alias alias -> shouldSkip ("/" +:+ alias) = false.
Proof.
  intros (Hnonempty & Hslash & Hdashboard & Hpng & Hico).
  assert (forall reserved, JS.startsWith ("/" +:+ alias) ("/" +:+ reserved +:+ "/") = false)
    as Hreserved.
  { intros reserved. apply not_true_is_false. intros H.
    apply prefix_inv in H as [rest H].
    change ("/" +:+ alias) with (String "/" alias) in H.
    change (("/" +:+ reserved +:+ "/") +:+ rest)
      with (String "/" ((reserved +:+ "/") +:+ rest)) in H.
    injection H as ->. rewrite append_assoc in Hslash.
    by rewrite (includes_append reserved "/" rest) in Hslash. }
  assert (forall extension, (forall front, alias <> front +:+ extension) ->
                            extension <> "" ->
                            (forall rest, extension <> String "/" rest) ->
                            JS.endsWith ("/" +:+ alias) extension = false) as Hextension.
  { intros extension Halias Hne Hdot. apply not_true_is_false. intros H.
    apply endsWith_inv in H as [[|c front] H].
    - by apply (Hdot alias).
    - change ("/" +:+ alias) with (String "/" alias) in H.
      rewrite append_cons in H. injection H as _ ->. by apply (Halias front). }
  unfold shouldSkip.
  pose proof (Hreserved "api") as Hapi.
  pose proof (Hreserved "_next") as Hnext.
  pose proof (Hreserved "cloaked") as Hcloaked.
  change ("/" +:+ "api" +:+ "/") with "/api/" in Hapi.
  change ("/" +:+ "_next" +:+ "/") with "/_next/" in Hnext.
  change ("/" +:+ "cloaked" +:+ "/") with "/cloaked/" in Hcloaked.
  rewrite Hapi, Hnext, Hcloaked.
  rewrite (Hextension ".png" Hpng), (Hextension ".ico" Hico) by done.
  assert (JS.startsWith ("/" +:+ alias) "/dashboard" = false) as ->.
  { apply not_true_is_false. intros H. apply prefix_inv in H as [rest H].
    change ("/" +:+ alias) with (String "/" alias) in H.
    change ("/dashboard" +:+ rest) with (String "/" ("dashboard" +:+ rest)) in H.
    injection H as ->. by apply (Hdashboard rest). }
  assert (String.eqb ("/" +:+ alias) "/" = false) as ->.
  { apply String.eqb_neq. intros H.
    change ("/" +:+ alias) with (String "/" alias) in H. by injection H. }
  change ("/" +:+ alias) with (String "/" alias).
  by rewrite split_length_sep_pieces, (split_without_sep "/" alias Hslash).
Qed.

Section Reach.

Variable new_URL : string -> option string -> option URL.
Variable createRouteMatcher : list string -> NextRequest -> bool.
Variable isBot : string -> bool.
Variable getCountryContinentCode : string -> option string.
Variable NODE_ENV : option string.

Local Abbreviation run :=
  (resolveLinkAndLogAnalytics new_URL createRouteMatcher isBot
                              getCountryContinentCode NODE_ENV).

(** X8. A request for a plain alias (one segment, not starting with
    [dashboard], not ending in [.png] or [.ico]) on a route that is not
    protected, from a caller that is not a bot, always reaches the resolver
    call: with the host as [domain], the path as [alias], and the caller's
    [user-agent] and [referer] passed on, empty when absent. The reserved
    names without their slash ([/api], [/_next], [/cloaked]) and static
    files of other kinds ([/robots.txt]) are plain aliases. *)
Theorem plain_alias_reaches_the_resolver
        (request : NextRequest) (u : URL) (alias : string) :
  isProtectedRoute createRouteMatcher request = false ->
  new_URL (url request) None = Some u ->
  pathname u = "/" +:+ alias ->
  plain_alias alias ->
  JS.truthy (headers_get request "user-agent") &&
    isBot (JS.nullish (headers_get request "user-agent") "") = false ->
  run request =
  Fetch (JS.encodeURI
           ((match NODE_ENV with
             | Some "production" => "http://localhost:3000"
             | _ => origin u
             end) +:+ "/api/link?domain=" +:+ host u +:+ "&alias=/" +:+ alias +:+
            "&country=" +:+ ctx_country (clientContext getCountryContinentCode request (host u)) +:+
            "&city=" +:+ ctx_city (clientContext getCountryContinentCode request (host u)) +:+
            "&continent=" +:+
            JS.template (ctx_continent (clientContext getCountryContinentCode request (host u))) +:+
            "&ip=" +:+ JS.template (getIpAddress request)))
        [("user-agent", JS.nullish (headers_get request "user-agent") "");
         ("referer", JS.nullish (headers_get request "referer") "")]
        (dispatch new_URL request).
Proof.
  intros Hprotected Hu Hpath Halias Hbot.
  rewrite (eligible_request_fetches new_URL createRouteMatcher isBot
             getCountryContinentCode NODE_ENV request u Hprotected Hu);
    [|rewrite Hpath; by apply plain_alias_not_skipped|exact Hbot].
  unfold resolverUrl. rewrite Hpath. reflexivity.
Qed.

(** X9. A request whose [user-agent] is not empty and is a bot's by
    [isBot] is let through without a resolver call, whatever its path. *)
Theorem bots_are_let_through (request : NextRequest) (u : URL) (userAgent : string) :
  new_URL (url request) None = Some u ->
  headers request !! "user-agent" = Some userAgent ->
  userAgent <> "" ->
  isBot userAgent = true ->
  exists o, run request = Ended o /\ decision o = Some Continue /\ console_error o = [].
Proof.
  intros Hu Hagent Hnonempty Hbot. unfold resolveLinkAndLogAnalytics.
  destruct (isProtectedRoute createRouteMatcher request).
  - eexists. repeat split; reflexivity.
  - rewrite Hu. destruct (shouldSkip (pathname u)).
    + eexists. repeat split; reflexivity.
    + unfold headers_get. rewrite Hagent. cbn [JS.nullish].
      rewrite (truthy_nonempty _ Hnonempty), Hbot.
      eexists. repeat split; reflexivity.
Qed.

End Reach.

Lemma plain_alias_by_computation (alias : string) :
  alias <> "" ->
  JS.includes alias "/" = false ->
  JS.startsWith alias "dashboard" = false ->
  JS.endsWith alias ".png" = false ->
  JS.endsWith alias ".ico" = false ->
  plain_alias alias.
Proof.
  intros Hnonempty Hslash Hdashboard Hpng Hico. repeat split; try done.
  - intros rest ->. by rewrite startsWith_append in Hdashboard.
  - intros front ->. by rewrite endsWith_append in Hpng.
  - intros front ->. by rewrite endsWith_append in Hico.
Qed.

Lemma plain_alias_reaches_the_resolver_witness :
  Sample.middleware request_robots =
  Fetch "https://ishortn.ink/api/link?domain=ishortn.ink&alias=/robots.txt&country=Unknown&city=Unknown&continent=Unknown&ip=undefined"
        [("user-agent", ""); ("referer", "")]
        (dispatch Sample.new_URL request_robots).
Proof.
  unfold Sample.middleware.
  rewrite (plain_alias_reaches_the_resolver Sample.new_URL Sample.createRouteMatcher
             Sample.isBot Sample.getCountryContinentCode None
             request_robots url_robots "robots.txt").
  - f_equal.
  - vm_compute. reflexivity.
  - vm_compute. reflexivity.
  - reflexivity.
  - apply plain_alias_by_computation; [discriminate|reflexivity..].
  - reflexivity.
Defined.

Lemma bots_are_let_through_witness :
  exists o, Sample.middleware request_crawler = Ended o /\
            decision o = Some Continue /\ console_error o = [].
Proof.
  eapply (bots_are_let_through Sample.new_URL Sample.createRouteMatcher Sample.isBot
            Sample.getCountryContinentCode None request_crawler url_abc "Twitterbot/1.0").
  - vm_compute. reflexivity.
  - vm_compute. reflexivity.
  - discriminate.
  - reflexivity.
Defined.

(** ** The address of the resolver call *)

Lemma all_chars_append (p : ascii -> bool) (s t : string) :
  WHATWG.all_chars p (s +:+ t) = WHATWG.all_chars p s && WHATWG.all_chars p t.
Proof.
  induction s as [|c s IH]; [reflexivity|].
  rewrite append_cons. simpl. by rewrite IH, andb_assoc.
Qed.

Lemma encode_cons (keep : ascii -> bool) (c : ascii) (s : string) :
  JS.encode keep (String c s) =
  (if keep c then String c "" else JS.percent c) +:+ JS.encode keep s.
Proof. reflexivity. Qed.

(** What [encodeURI] writes for one character is visible ASCII. *)
Lemma encodeURI_piece_visible (c : ascii) :
  WHATWG.all_chars visible (if encodeURI_keeps c then String c "" else JS.percent c)
  = true.
Proof. destruct c as [[] [] [] [] [] [] [] []]; vm_compute; reflexivity. Qed.

Lemma encodeURI_visible (s : string) :
  WHATWG.all_chars visible (JS.encodeURI s) = true.
Proof.
  change (JS.encodeURI s) with (JS.encode encodeURI_keeps s).
  induction s as [|c s IH]; [reflexivity|].
  by rewrite encode_cons, all_chars_append, encodeURI_piece_visible, IH.
Qed.

Lemma encode_kept (keep : ascii -> bool) (s : string) :
  WHATWG.all_chars keep s = true -> JS.encode keep s = s.
Proof.
  induction s as [|c s IH]; [reflexivity|].
  intros H. change (keep c && WHATWG.all_chars keep s = true) in H.
  apply andb_prop in H as [Hc Hs]. by rewrite encode_cons, Hc, (IH Hs).
Qed.

Lemma regroup (p1 p2 p3 p4 p5 tail : string) :
  p1 +:+ p2 +:+ p3 +:+ p4 +:+ p5 +:+ tail = (p1 +:+ p2 +:+ p3 +:+ p4 +:+ p5) +:+ tail.
Proof. by rewrite !append_assoc. Qed.

Lemma geo_override_country (getCountryContinentCode : string -> option string)
      (request : NextRequest) (host : string) (c : ascii) (s : string) :
  searchParams_get (searchParams request) "geo" = Some (String c s) ->
  ctx_country (clientContext getCountryContinentCode request host) = String c s.
Proof. intros Hgeo. unfold clientContext. simpl. by apply or_string_truthy. Qed.

Section ResolverCall.

Variable new_URL : string -> option string -> option URL.
Variable createRouteMatcher : list string -> NextRequest -> bool.
Variable isBot : string -> bool.
Variable getCountryContinentCode : string -> option string.

(** X10. In production the resolver is called at
    [http://localhost:3000/api/link], whatever origin the request came to. *)
Theorem production_calls_the_local_port
        (request : NextRequest) input init_headers resume :
  resolveLinkAndLogAnalytics new_URL createRouteMatcher isBot getCountryContinentCode
                             (Some "production") request
  = Fetch input init_headers resume ->
  exists rest, input = "http://localhost:3000/api/link?domain=" +:+ rest.
Proof.
  intros Hrun. apply fetch_input in Hrun as (u & _ & ->).
  unfold resolverUrl, JS.encodeURI.
  rewrite (encode_append _ "http://localhost:3000"), (encode_append _ "/api/link?domain=").
  rewrite <- append_assoc. eexists. reflexivity.
Qed.

Variable NODE_ENV : option string.

Local Abbreviation run :=
  (resolveLinkAndLogAnalytics new_URL createRouteMatcher isBot
                              getCountryContinentCode NODE_ENV).

(** X11. The address of the resolver call is made of visible ASCII
    characters only: whatever the headers, the query and the path hold, no
    space, control character or non-ASCII byte is sent in it. *)
Theorem resolver_address_is_visible_ascii
        (request : NextRequest) input init_headers resume :
  run request = Fetch input init_headers resume ->
  WHATWG.all_chars visible input = true.
Proof.
  intros Hrun. apply fetch_input in Hrun as (u & _ & ->).
  apply encodeURI_visible.
Qed.

(** X12. A [geo] override made only of characters that [encodeURI] leaves
    alone, among them [&], [=], [?] and [#], is copied into the address of
    the resolver call as it is, between [&country=] and [&city=]: the
    override can add parameters to the call, or cut the rest of it off. *)
Theorem override_is_copied_unescaped
        (request : NextRequest) (override : string) input init_headers resume :
  searchParams_get (searchParams request) "geo" = Some override ->
  override <> "" ->
  WHATWG.all_chars encodeURI_keeps override = true ->
  run request = Fetch input init_headers resume ->
  exists front back,
    input = front +:+ "&country=" +:+ override +:+ "&city=" +:+ back.
Proof.
  intros Hgeo Hnonempty Hkept Hrun.
  apply fetch_input in Hrun as (u & _ & ->).
  destruct override as [|c s]; [done|].
  unfold resolverUrl.
  rewrite (geo_override_country getCountryContinentCode request (host u) c s Hgeo).
  change JS.encodeURI with (JS.encode encodeURI_keeps).
  rewrite !encode_append, (encode_kept _ _ Hkept), regroup.
  eexists _, _. reflexivity.
Qed.

End ResolverCall.

Lemma request_abc_fetches_in_production :
  resolveLinkAndLogAnalytics Sample.new_URL Sample.createRouteMatcher Sample.isBot
                             Sample.getCountryContinentCode (Some "production")
                             Sample.request_abc
  = Fetch "http://localhost:3000/api/link?domain=ishortn.ink&alias=/abc&country=Unknown&city=Unknown&continent=Unknown&ip=undefined"
          [("user-agent", ""); ("referer", "")]
          (dispatch Sample.new_URL Sample.request_abc).
Proof.
  rewrite (eligible_request_fetches _ _ _ _ _ Sample.request_abc url_abc);
    [|by vm_compute..].
  f_equal.
Qed.

Lemma production_calls_the_local_port_witness :
  exists rest,
    "http://localhost:3000/api/link?domain=ishortn.ink&alias=/abc&country=Unknown&city=Unknown&continent=Unknown&ip=undefined"
    = "http://localhost:3000/api/link?domain=" +:+ rest.
Proof.
  exact (production_calls_the_local_port _ _ _ _ _ _ _ _
           request_abc_fetches_in_production).
Defined.

Lemma resolver_address_is_visible_ascii_witness :
  WHATWG.all_chars visible
    "https://ishortn.ink/api/link?domain=ishortn.ink&alias=/abc&country=Unknown&city=Unknown&continent=Unknown&ip=undefined"
  = true.
Proof.
  exact (resolver_address_is_visible_ascii _ _ _ _ _ _ _ _ _ request_abc_fetches).
Defined.

Lemma request_injecting_fetches :
  Sample.middleware request_injecting =
  Fetch "https://ishortn.ink/api/link?domain=ishortn.ink&alias=/abc&country=FR&ip=6.6.6.6&city=Unknown&continent=Unknown&ip=undefined"
        [("user-agent", ""); ("referer", "")]
        (dispatch Sample.new_URL request_injecting).
Proof.
  unfold Sample.middleware.
  rewrite (eligible_request_fetches _ _ _ _ _ request_injecting url_injecting);
    [|by vm_compute..].
  f_equal.
Qed.

Lemma override_is_copied_unescaped_witness :
  exists front back,
    "https://ishortn.ink/api/link?domain=ishortn.ink&alias=/abc&country=FR&ip=6.6.6.6&city=Unknown&continent=Unknown&ip=undefined"
    = front +:+ "&country=" +:+ "FR&ip=6.6.6.6" +:+ "&city=" +:+ back.
Proof.
  apply (override_is_copied_unescaped _ _ _ _ _ request_injecting "FR&ip=6.6.6.6" _ _ _
           eq_refl ltac:(discriminate) eq_refl request_injecting_fetches).
Defined.

(** ** What the dispatcher does with the resolver's answer *)

Lemma carries_no_url_falsy (data : JSON) :
  carries_no_url data ->
  exists data_url, Get data "url" = Normal data_url /\ ToBoolean data_url = false.
Proof.
  intros [b|zero text|s|items|members Hmember|members value Hmember Hvalue];
    try (by exists None).
  - exists None. split; [simpl; by rewrite Hmember|reflexivity].
  - exists (Some value). split; [simpl; by rewrite Hmember|].
    by destruct Hvalue as [->|[->|[->|[text ->]]]].
Qed.

Section Answers.

Variable new_URL : string -> option string -> option URL.
Variable createRouteMatcher : list string -> NextRequest -> bool.
Variable isBot : string -> bool.
Variable getCountryContinentCode : string -> option string.
Variable NODE_ENV : option string.

Local Abbreviation run :=
  (resolveLinkAndLogAnalytics new_URL createRouteMatcher isBot
                              getCountryContinentCode NODE_ENV).

(** X13. When the resolver answers 2xx with the JSON value [null], reading
    [data.url] throws: the middleware ends in a [TypeError] and makes no
    decision. *)
Theorem null_body_throws
        (request : NextRequest) input init_headers resume (response : Response) :
  run request = Fetch input init_headers resume ->
  ok response = true ->
  json response = Some JNull ->
  completion (resume (fetch_resolved response)) = Throw TypeError /\
  decision (resume (fetch_resolved response)) = None.
Proof.
  intros Hrun Hok Hjson. rewrite (resume_is_dispatch _ _ _ _ _ _ _ _ _ Hrun).
  unfold decision, dispatch. by rewrite Hok, Hjson.
Qed.

(** X14. When the resolver's JSON body has no [url] to follow (it is a
    boolean, a number, a string or an array, or an object whose [url] is
    missing, [null], [false], [0] or the empty string), the middleware
    answers with [NextResponse.next()] and logs nothing, whatever the
    status. *)
Theorem answer_without_url_continues
        (request : NextRequest) input init_headers resume
        (response : Response) (data : JSON) :
  run request = Fetch input init_headers resume ->
  json response = Some data ->
  carries_no_url data ->
  resume (fetch_resolved response) = returns NextResponse_next.
Proof.
  intros Hrun Hjson Hdata. rewrite (resume_is_dispatch _ _ _ _ _ _ _ _ _ Hrun).
  destruct (carries_no_url_falsy data Hdata) as (data_url & Hget & Hfalsy).
  unfold dispatch. destruct (ok response); [|reflexivity].
  by rewrite Hjson, Hget, Hfalsy.
Qed.

(** X15. The dispatcher writes to the error log in two cases only, one
    line each, and both end in Continue: the resolver's address parsed to a
    protocol other than [http:] and [https:], or it could not be parsed
    even with [https://] in front. A redirect, a rewrite and a thrown error
    are never logged. *)
Theorem dispatcher_logs_only_rejections (request : NextRequest) (settled : FetchResult) :
  let o := dispatch new_URL request settled in
  console_error o = [] \/
  (completion o = Normal (Some NextResponse_next) /\
   exists response data data_url,
     settled = fetch_resolved response /\ json response = Some data /\
     Get data "url" = Normal data_url /\
     ((exists parsed,
          new_URL (ToString data_url) (Some (url request)) = Some parsed /\
          protocol parsed <> "http:" /\ protocol parsed <> "https:" /\
          console_error o = ["Blocked redirect to unsafe protocol: " +:+ protocol parsed]) \/
      (new_URL (ToString data_url) (Some (url request)) = None /\
       new_URL ("https://" +:+ ToString data_url) None = None /\
       console_error o = ["Invalid redirect URL: " +:+ ToString data_url]))).
Proof.
  unfold dispatch. destruct settled as [|response]; [by left|].
  destruct (ok response); simpl; [|by left].
  destruct (json response) as [data|] eqn:Hjson; [|by left].
  destruct (Get data "url") as [data_url|e] eqn:Hurl; [|by left].
  destruct (ToBoolean data_url); simpl; [|by left].
  unfold validate.
  destruct (new_URL (ToString data_url) (Some (url request))) as [parsed|] eqn:Hparsed.
  - destruct (String.eqb_spec (protocol parsed) "http:") as [Hhttp|Hhttp]; simpl.
    { destruct (Get data "cloaking") as [cloaking|e]; [|by left].
      destruct (ToBoolean cloaking); [|by left].
      destruct (new_URL ("/cloaked/" +:+ _) _); by left. }
    destruct (String.eqb_spec (protocol parsed) "https:") as [Hhttps|Hhttps]; simpl.
    { destruct (Get data "cloaking") as [cloaking|e]; [|by left].
      destruct (ToBoolean cloaking); [|by left].
      destruct (new_URL ("/cloaked/" +:+ _) _); by left. }
    right. split; [reflexivity|]. exists response, data, data_url.
    repeat split; try done. left. by exists parsed.
  - destruct (new_URL ("https://" +:+ ToString data_url) None) as [fallback|] eqn:Hfallback.
    + destruct (String.eqb_spec (protocol fallback) "https:") as [Hhttps|Hhttps]; simpl;
        [|by left].
      destruct (Get data "cloaking") as [cloaking|e]; [|by left].
      destruct (ToBoolean cloaking); [|by left].
      destruct (new_URL ("/cloaked/" +:+ _) _); by left.
    + right. split; [reflexivity|]. exists response, data, data_url.
      repeat split; try done. by right.
Qed.

End Answers.

Lemma null_body_throws_witness :
  completion (dispatch Sample.new_URL Sample.request_abc
                       (fetch_resolved {| status := 200; json := Some JNull |}))
  = Throw TypeError /\
  decision (dispatch Sample.new_URL Sample.request_abc
                     (fetch_resolved {| status := 200; json := Some JNull |})) = None.
Proof.
  exact (null_body_throws _ _ _ _ _ _ _ _ _ {| status := 200; json := Some JNull |}
           request_abc_fetches eq_refl eq_refl).
Defined.

Lemma answer_without_url_continues_witness :
  dispatch Sample.new_URL Sample.request_abc
           (resolver_says (JObject [("cloaking", JBool true); ("url", JString "")]))
  = returns NextResponse_next.
Proof.
  apply (answer_without_url_continues _ _ _ _ _ _ _ _ _
           {| status := 200;
              json := Some (JObject [("cloaking", JBool true); ("url", JString "")]) |}
           _ request_abc_fetches eq_refl).
  apply (object_with_falsy_url _ (JString "")); [reflexivity|].
  right. right. by left.
Defined.

(** ** Validation under the runtime's parser *)

Section ParserAtWork.

Import WHATWG.

Variable unicode_ToASCII : string -> option string.

Lemma new_URL_record (input : string) (base : option string) (parsed : URL) :
  new_URL unicode_ToASCII input base = Some parsed ->
  exists u, parsed = URL_of unicode_ToASCII u /\
            match base with
            | None => basic_URL_parse unicode_ToASCII input None = Some u
            | Some b =>
                exists parsedBase,
                  basic_URL_parse unicode_ToASCII b None = Some parsedBase /\
                  basic_URL_parse unicode_ToASCII input (Some parsedBase) = Some u
            end.
Proof.
  unfold new_URL. destruct base as [b|].
  - destruct (basic_URL_parse unicode_ToASCII b None) as [parsedBase|]; [|discriminate].
    destruct (basic_URL_parse unicode_ToASCII input (Some parsedBase)) as [u|] eqn:Hu;
      [|discriminate].
    intros [= <-]. exists u. split; [reflexivity|]. by exists parsedBase.
  - destruct (basic_URL_parse unicode_ToASCII input None) as [u|]; [|discriminate].
    intros [= <-]. by exists u.
Qed.

(** With [https://] in front, an address that parses parses to [https]. *)
Lemma fallback_is_https (text : string) (u : url) :
  basic_URL_parse unicode_ToASCII ("https://" +:+ text) None = Some u ->
  url_scheme u = "https".
Proof.
  intros H. apply parsed_scheme in H as (scheme & rest & Hstart & <- & _).
  assert (scheme_start_state
            (remove_tab_newline (strip_trailing (strip_leading ("https://" +:+ text))))
          = Some ("https", "//" +:+ remove_tab_newline (strip_trailing text))) as Hhttps
      by reflexivity.
  rewrite Hhttps in Hstart. by injection Hstart as <- _.
Qed.

End ParserAtWork.

Section Validation.

Variable unicode_ToASCII : string -> option string.

(** X16. With the runtime's parser, validation never turns an address
    away in silence: the fallback parse, when it succeeds, always has the
    protocol [https:], so the unlogged return of line 142 is never taken,
    and every early return of lines 126 to 149 has written to the log. *)
Theorem validation_never_rejects_in_silence
        (request : NextRequest) (data_url : option JSON) :
  (forall fallback,
      WHATWG.new_URL unicode_ToASCII ("https://" +:+ ToString data_url) None = Some fallback ->
      protocol fallback = "https:") /\
  (forall early,
      validate (WHATWG.new_URL unicode_ToASCII) request data_url = inl early ->
      exists message, console_error early = [message]).
Proof.
  assert (forall fallback,
             WHATWG.new_URL unicode_ToASCII ("https://" +:+ ToString data_url) None = Some fallback ->
             protocol fallback = "https:") as Hfallback.
  { intros fallback H. apply new_URL_record in H as (u & -> & Hu).
    apply fallback_is_https in Hu. unfold WHATWG.URL_of. cbn [protocol]. by rewrite Hu. }
  split; [exact Hfallback|].
  intros early. unfold validate.
  destruct (WHATWG.new_URL unicode_ToASCII (ToString data_url) (Some (url request))) as [parsed|].
  - destruct (negb _ && negb _); [|discriminate].
    intros [= <-]. by eexists.
  - destruct (WHATWG.new_URL unicode_ToASCII ("https://" +:+ ToString data_url) None)
      as [fallback|] eqn:Hparse.
    + rewrite (Hfallback fallback eq_refl). discriminate.
    + intros [= <-]. by eexists.
Qed.

End Validation.

Lemma validation_never_rejects_in_silence_witness :
  exists message,
    console_error (logging "Invalid redirect URL: //["
                           (returns NextResponse_next)) = [message].
Proof.
  destruct (validation_never_rejects_in_silence Sample.unicode_ToASCII Sample.request_abc
              (Some (JString "//["))) as [_ Hearly].
  apply Hearly. vm_compute. reflexivity.
Defined.

(** ** Where an accepted address can lead *)

Section ParserOnRelativeInput.

Import WHATWG.

Variable unicode_ToASCII : string -> option string.

Lemma same_site_refl (u : url) : same_site u u.
Proof. by repeat split. Qed.

Lemma same_site_trans (u v w : url) : same_site u v -> same_site v w -> same_site u w.
Proof. intros (Hs & Hh & Hp) (Hs' & Hh' & Hp'). repeat split; congruence. Qed.

Lemma same_site_set_path (u : url) p : same_site u (set_path u p).
Proof. by repeat split. Qed.

Lemma same_site_set_query (u : url) q : same_site u (set_query u q).
Proof. by repeat split. Qed.

Lemma same_site_set_fragment (u : url) f : same_site u (set_fragment u f).
Proof. by repeat split. Qed.

Lemma same_site_shorten (u : url) : same_site u (shorten u).
Proof.
  unfold shorten. destruct (url_path_of u) as [|[|only [|]]];
    try apply same_site_refl; try apply same_site_set_path.
  destruct (_ && _); [apply same_site_refl|apply same_site_set_path].
Qed.

Lemma same_site_end_segment (u : url) buffer at_slash :
  same_site u (end_segment u buffer at_slash).
Proof.
  unfold end_segment, append_segment.
  destruct (double_dot buffer).
  { destruct at_slash; [apply same_site_shorten|].
    eapply same_site_trans; [apply same_site_shorten|apply same_site_set_path]. }
  destruct (single_dot buffer).
  { destruct at_slash; [apply same_site_refl|apply same_site_set_path]. }
  repeat match goal with
         | |- context [match ?x with _ => _ end] => destruct x
         end; apply same_site_set_path.
Qed.

Lemma same_site_query_state (u : url) rest : same_site u (query_state u rest).
Proof.
  unfold query_state. destruct (span _ rest) as [text [|c fragment]]; by repeat split.
Qed.

Lemma same_site_path_state (rest : string) :
  forall u buffer, same_site u (path_state u buffer rest).
Proof.
  induction rest as [|c rest IH]; intros u buffer; simpl.
  - apply same_site_end_segment.
  - destruct (ch c "/" || is_special u && ch c "\").
    { eapply same_site_trans; [apply same_site_end_segment|apply IH]. }
    destruct (ch c "?").
    { eapply same_site_trans; [apply same_site_end_segment|apply same_site_query_state]. }
    destruct (ch c "#").
    { eapply same_site_trans; [apply same_site_end_segment|apply same_site_set_fragment]. }
    apply IH.
Qed.

(** Without a colon there is no scheme. *)
Lemma scheme_state_needs_colon (s : string) :
  forall buffer,
    all_chars (fun a => negb (ch a ":")) s = true -> scheme_state buffer s = None.
Proof.
  induction s as [|c s IH]; intros buffer H; [reflexivity|].
  change (negb (ch c ":") && all_chars (fun a => negb (ch a ":")) s = true) in H.
  apply andb_prop in H as [Hc Hs]. apply negb_true_iff in Hc.
  simpl. rewrite Hc, (IH _ Hs). by destruct (_ || _).
Qed.

Lemma all_chars_strip_trailing (p : ascii -> bool) (s : string) :
  all_chars p s = true -> all_chars p (strip_trailing s) = true.
Proof.
  induction s as [|c s IH]; [done|].
  intros H. change (p c && all_chars p s = true) in H.
  apply andb_prop in H as [Hc Hs].
  change (strip_trailing (String c s))
    with (if all_chars C0_control_or_space (String c s) then "" else String c (strip_trailing s)).
  destruct (all_chars C0_control_or_space (String c s)); [done|].
  change (p c && all_chars p (strip_trailing s) = true). by rewrite Hc, (IH Hs).
Qed.

Lemma all_chars_remove_tab_newline (p : ascii -> bool) (s : string) :
  all_chars p s = true -> all_chars p (remove_tab_newline s) = true.
Proof.
  induction s as [|c s IH]; [done|].
  intros H. change (p c && all_chars p s = true) in H.
  apply andb_prop in H as [Hc Hs]. simpl.
  destruct (_ || _); [by apply IH|].
  change (p c && all_chars p (remove_tab_newline s) = true). by rewrite Hc, (IH Hs).
Qed.

Lemma not_a_newline (c : ascii) :
  C0_control_or_space c = false ->
  (code c =? 9) || (code c =? 10) || (code c =? 13) = false.
Proof. destruct c as [[] [] [] [] [] [] [] []]; try discriminate; reflexivity. Qed.

(** The parser's first step keeps a leading visible character. *)
Lemma preprocess_cons (c : ascii) (rest : string) :
  C0_control_or_space c = false ->
  remove_tab_newline (strip_trailing (strip_leading (String c rest)))
  = String c (remove_tab_newline (strip_trailing rest)).
Proof.
  intros Hc. cbn [strip_leading]. rewrite Hc.
  change (strip_trailing (String c rest))
    with (if C0_control_or_space c && all_chars C0_control_or_space rest
          then "" else String c (strip_trailing rest)).
  rewrite Hc. cbn [andb remove_tab_newline]. by rewrite (not_a_newline c Hc).
Qed.

Lemma strip_leading_blank (s : string) :
  all_chars C0_control_or_space s = true -> strip_leading s = "".
Proof.
  induction s as [|c s IH]; [done|].
  intros H. change (C0_control_or_space c && all_chars C0_control_or_space s = true) in H.
  apply andb_prop in H as [Hc Hs]. cbn [strip_leading]. by rewrite Hc, (IH Hs).
Qed.

Variable b : url.
Hypothesis b_is_web : url_scheme b = "http" \/ url_scheme b = "https".
Hypothesis b_has_segments : has_opaque_path b = false.

Lemma web_is_not_file : String.eqb (url_scheme b) "file" = false.
Proof. by destruct b_is_web as [-> | ->]. Qed.

Lemma web_is_special : is_special_scheme (url_scheme b) = true.
Proof. by destruct b_is_web as [-> | ->]. Qed.

(** An address without a colon, starting with a visible character that is
    no slash, parses against a web URL to a URL of the same site. *)
Lemma relative_parse (c : ascii) (rest : string) :
  C0_control_or_space c = false ->
  ch c "/" = false -> ch c "\" = false ->
  all_chars (fun a => negb (ch a ":")) (String c rest) = true ->
  exists u, basic_URL_parse unicode_ToASCII (String c rest) (Some b) = Some u /\
            same_site b u.
Proof.
  intros Hvisible Hslash Hbackslash Hcolon.
  unfold basic_URL_parse. rewrite (preprocess_cons c rest Hvisible).
  assert (scheme_start_state (String c (remove_tab_newline (strip_trailing rest))) = None)
    as ->.
  { unfold scheme_start_state. destruct (JS.is_alpha c); [|reflexivity].
    apply scheme_state_needs_colon.
    change (negb (ch c ":") && all_chars (fun a => negb (ch a ":")) rest = true) in Hcolon.
    apply andb_prop in Hcolon as [Hc Hrest].
    change (negb (ch c ":") &&
            all_chars (fun a => negb (ch a ":")) (remove_tab_newline (strip_trailing rest))
            = true).
    by rewrite Hc, all_chars_remove_tab_newline by by apply all_chars_strip_trailing. }
  unfold no_scheme_state. rewrite b_has_segments, web_is_not_file. cbn [negb].
  unfold relative_state. rewrite Hslash, Hbackslash, andb_false_r. cbn [orb].
  destruct (ch c "?"); [|destruct (ch c "#")]; eexists; (split; [reflexivity|]).
  - eapply same_site_trans; [|apply same_site_query_state]. by repeat split.
  - by repeat split.
  - eapply same_site_trans; [|apply same_site_path_state].
    eapply same_site_trans; [|apply same_site_shorten]. by repeat split.
Qed.

(** An address of white space alone parses to the base, its fragment
    dropped. *)
Lemma blank_parse (text : string) :
  all_chars C0_control_or_space text = true ->
  basic_URL_parse unicode_ToASCII text (Some b) = Some (set_fragment b None).
Proof.
  intros Hblank. unfold basic_URL_parse. rewrite (strip_leading_blank text Hblank).
  cbn [strip_trailing remove_tab_newline scheme_start_state].
  unfold no_scheme_state. by rewrite b_has_segments, web_is_not_file.
Qed.

(** What the [URL] object shows of a URL on the site of [b]. *)
Lemma same_site_object (u : url) :
  same_site b u ->
  origin (URL_of unicode_ToASCII u) = origin (URL_of unicode_ToASCII b) /\
  host (URL_of unicode_ToASCII u) = host (URL_of unicode_ToASCII b) /\
  protocol (URL_of unicode_ToASCII u) = protocol (URL_of unicode_ToASCII b) /\
  (protocol (URL_of unicode_ToASCII u) = "http:" \/
   protocol (URL_of unicode_ToASCII u) = "https:").
Proof.
  intros (Hscheme & Hhost & Hport).
  unfold URL_of, origin_of, tuple_origin, port_serialise.
  cbn [origin host protocol]. rewrite Hscheme, Hhost, Hport.
  destruct b_is_web as [-> | ->]; repeat split; first [by left|by right].
Qed.

End ParserOnRelativeInput.

Lemma append_colon_inj (s s' : string) : s +:+ ":" = s' +:+ ":" -> s = s'.
Proof.
  revert s'. induction s as [|c s IH]; intros [|c' s'] H.
  - reflexivity.
  - rewrite append_cons in H. injection H as _ H. by destruct s'.
  - rewrite append_cons in H. injection H as _ H. by destruct s.
  - rewrite !append_cons in H. injection H as -> H. by rewrite (IH s' H).
Qed.

Lemma no_colon (s : string) :
  JS.includes s ":" = false ->
  WHATWG.all_chars (fun a => negb (WHATWG.ch a ":")) s = true.
Proof.
  induction s as [|c s IH]; [reflexivity|].
  rewrite includes_char_cons. intros H. apply orb_false_elim in H as [Hc Hs].
  change (negb (Ascii.eqb c ":") &&
          WHATWG.all_chars (fun a => negb (WHATWG.ch a ":")) s = true).
  rewrite (IH Hs), andb_true_r.
  destruct (ascii_dec ":" c) as [<-|Hne]; [discriminate|].
  apply negb_true_iff, Ascii.eqb_neq. congruence.
Qed.

Section Destinations.

Variable unicode_ToASCII : string -> option string.

(** The requested URL as the parser's record, when [new URL(request.url)]
    shows a web protocol. *)
Lemma requested_record (request : NextRequest) (requested : URL) :
  WHATWG.new_URL unicode_ToASCII (url request) None = Some requested ->
  protocol requested = "http:" \/ protocol requested = "https:" ->
  exists b,
    WHATWG.basic_URL_parse unicode_ToASCII (url request) None = Some b /\
    requested = WHATWG.URL_of unicode_ToASCII b /\
    (WHATWG.url_scheme b = "http" \/ WHATWG.url_scheme b = "https") /\
    WHATWG.has_opaque_path b = false.
Proof.
  intros Hparsed Hweb.
  apply new_URL_record in Hparsed as (b & -> & Hb).
  assert (WHATWG.url_scheme b = "http" \/ WHATWG.url_scheme b = "https") as Hscheme.
  { destruct Hweb as [H|H]; [left|right]; by apply append_colon_inj. }
  exists b. repeat split; try done.
  by apply (parsed_web_url_has_segments unicode_ToASCII (url request)).
Qed.

(** X17. An address from the resolver that holds no colon and begins with
    a visible character other than a slash or a backslash is read as a path
    relative to the requested URL: the first [new URL] accepts it, and the
    redirect goes to an address with the origin and the host of the
    request, whatever host name the address spells. *)
Theorem address_without_colon_stays_on_the_site
        (request : NextRequest) (requested : URL) (c : ascii) (rest : string) :
  WHATWG.new_URL unicode_ToASCII (url request) None = Some requested ->
  protocol requested = "http:" \/ protocol requested = "https:" ->
  WHATWG.C0_control_or_space c = false ->
  c <> "/"%char -> c <> "\"%char ->
  JS.includes (String c rest) ":" = false ->
  exists parsedUrl,
    WHATWG.new_URL unicode_ToASCII (String c rest) (Some (url request)) = Some parsedUrl /\
    origin parsedUrl = origin requested /\
    host parsedUrl = host requested /\
    validate (WHATWG.new_URL unicode_ToASCII) request (Some (JString (String c rest)))
    = inr (href parsedUrl).
Proof.
  intros Hrequested Hweb Hvisible Hslash Hbackslash Hcolon.
  destruct (requested_record request requested Hrequested Hweb)
    as (b & Hb & -> & Hscheme & Hsegments).
  destruct (relative_parse unicode_ToASCII b Hscheme Hsegments c rest Hvisible)
    as (u & Hu & Hsite).
  { by apply Ascii.eqb_neq. }
  { by apply Ascii.eqb_neq. }
  { by apply no_colon. }
  destruct (same_site_object unicode_ToASCII b Hscheme u Hsite)
    as (Horigin & Hhost & _ & Hprotocol).
  assert (WHATWG.new_URL unicode_ToASCII (String c rest) (Some (url request))
          = Some (WHATWG.URL_of unicode_ToASCII u)) as Hnew.
  { unfold WHATWG.new_URL. by rewrite Hb, Hu. }
  exists (WHATWG.URL_of unicode_ToASCII u). repeat split; try done.
  unfold validate. cbn [ToString ToString_json]. rewrite Hnew.
  by destruct Hprotocol as [-> | ->].
Qed.

(** X18. An answer whose [url] holds spaces and control characters only
    (and is not the empty string) passes both checks of the dispatcher:
    without cloaking the visitor is redirected to the URL they asked for,
    its fragment dropped, so the browser comes back with the same
    request. *)
Theorem blank_address_redirects_to_the_request
        (request : NextRequest) (requested : URL) (data : JSON) (text : string)
        (cloaking : option JSON) :
  WHATWG.new_URL unicode_ToASCII (url request) None = Some requested ->
  protocol requested = "http:" \/ protocol requested = "https:" ->
  Get data "url" = Normal (Some (JString text)) ->
  text <> "" ->
  WHATWG.all_chars WHATWG.C0_control_or_space text = true ->
  Get data "cloaking" = Normal cloaking ->
  ToBoolean cloaking = false ->
  exists b,
    WHATWG.basic_URL_parse unicode_ToASCII (url request) None = Some b /\
    dispatch (WHATWG.new_URL unicode_ToASCII) request (resolver_says data)
    = returns (NextResponse_redirect (WHATWG.serialise (WHATWG.set_fragment b None))).
Proof.
  intros Hrequested Hweb Hurl Hfilled Hblank Hcloaking Hoff.
  destruct (requested_record request requested Hrequested Hweb)
    as (b & Hb & -> & Hscheme & Hsegments).
  exists b. split; [done|].
  assert (validate (WHATWG.new_URL unicode_ToASCII) request (Some (JString text))
          = inr (WHATWG.serialise (WHATWG.set_fragment b None))) as Hvalidated.
  { unfold validate. cbn [ToString ToString_json]. unfold WHATWG.new_URL at 1.
    rewrite Hb, (blank_parse unicode_ToASCII b Hscheme Hsegments text Hblank).
    cbn [option_map WHATWG.URL_of protocol href WHATWG.set_fragment WHATWG.url_scheme].
    by destruct Hscheme as [-> | ->]. }
  unfold dispatch, resolver_says. cbn [ok status json negb].
  change (200 <=? 200)%N with true. change (200 <=? 299)%N with true.
  cbn [andb negb]. rewrite Hurl. cbn [ToBoolean].
  apply String.eqb_neq in Hfilled. rewrite Hfilled. cbn [negb].
  by rewrite Hvalidated, Hcloaking, Hoff.
Qed.

End Destinations.

Lemma address_without_colon_stays_on_the_site_witness :
  exists parsedUrl,
    WHATWG.new_URL Sample.unicode_ToASCII "example.com/page" (Some (url Sample.request_abc))
    = Some parsedUrl /\
    origin parsedUrl = origin url_abc /\
    host parsedUrl = host url_abc /\
    validate (WHATWG.new_URL Sample.unicode_ToASCII) Sample.request_abc
             (Some (JString "example.com/page"))
    = inr (href parsedUrl).
Proof.
  apply (address_without_colon_stays_on_the_site
           Sample.unicode_ToASCII Sample.request_abc url_abc "e" "xample.com/page").
  - vm_compute. reflexivity.
  - right. reflexivity.
  - reflexivity.
  - discriminate.
  - discriminate.
  - vm_compute. reflexivity.
Defined.

Lemma blank_address_redirects_to_the_request_witness :
  exists b,
    WHATWG.basic_URL_parse Sample.unicode_ToASCII (url Sample.request_abc) None = Some b /\
    dispatch (WHATWG.new_URL Sample.unicode_ToASCII) Sample.request_abc
             (resolver_says (JObject [("url", JString " ")]))
    = returns (NextResponse_redirect (WHATWG.serialise (WHATWG.set_fragment b None))).
Proof.
  apply (blank_address_redirects_to_the_request
           Sample.unicode_ToASCII Sample.request_abc url_abc
           (JObject [("url", JString " ")]) " " None).
  - vm_compute. reflexivity.
  - right. reflexivity.
  - reflexivity.
  - discriminate.
  - reflexivity.
  - reflexivity.
  - reflexivity.
Defined.

(** ** Where a cloaked link is served from *)

Lemma append_empty_r (s : string) : s +:+ "" = s.
Proof. induction s as [|c s IH]; [reflexivity|]. by rewrite append_cons, IH. Qed.

Lemma all_chars_impl (p q : ascii -> bool) (s : string) :
  (forall c, p c = true -> q c = true) ->
  WHATWG.all_chars p s = true -> WHATWG.all_chars q s = true.
Proof.
  intros Hpq. induction s as [|c s IH]; [done|].
  intros H. change (p c && WHATWG.all_chars p s = true) in H.
  apply andb_prop in H as [Hc Hs].
  change (q c && WHATWG.all_chars q s = true). by rewrite (Hpq c Hc), (IH Hs).
Qed.

Lemma encodeURIComponent_piece (c : ascii) :
  WHATWG.all_chars component_char (if JS.uriUnescaped c then String c "" else JS.percent c)
  = true.
Proof. destruct c as [[] [] [] [] [] [] [] []]; vm_compute; reflexivity. Qed.

Lemma encodeURIComponent_chars (s : string) :
  WHATWG.all_chars component_char (JS.encodeURIComponent s) = true.
Proof.
  change (JS.encodeURIComponent s) with (JS.encode JS.uriUnescaped s).
  induction s as [|c s IH]; [reflexivity|].
  by rewrite encode_cons, all_chars_append, encodeURIComponent_piece, IH.
Qed.

(** No such character means anything to the parser's path state. *)
Lemma component_char_is_inert (c : ascii) :
  component_char c = true ->
  WHATWG.C0_control_or_space c = false /\
  WHATWG.ch c "/" = false /\ WHATWG.ch c "\" = false /\
  WHATWG.ch c "?" = false /\ WHATWG.ch c "#" = false /\
  WHATWG.path_set c = false.
Proof.
  destruct c as [[] [] [] [] [] [] [] []]; intros H; try discriminate H;
    vm_compute; by repeat split.
Qed.

Section ParserOnCloakedPath.

Import WHATWG.

Variable unicode_ToASCII : string -> option string.

Lemma tidy (s : string) :
  all_chars (fun c => negb (C0_control_or_space c)) s = true ->
  remove_tab_newline (strip_trailing s) = s.
Proof.
  induction s as [|c s IH]; [reflexivity|].
  intros H.
  change (negb (C0_control_or_space c) &&
          all_chars (fun c => negb (C0_control_or_space c)) s = true) in H.
  apply andb_prop in H as [Hvisible Hs]. apply negb_true_iff in Hvisible.
  change (strip_trailing (String c s))
    with (if C0_control_or_space c && all_chars C0_control_or_space s
          then "" else String c (strip_trailing s)).
  rewrite Hvisible. cbn [andb remove_tab_newline].
  by rewrite (not_a_newline c Hvisible), (IH Hs).
Qed.

(** The path state copies such characters into its buffer, up to a slash
    or the end of the input. *)
Lemma path_state_copies (s : string) :
  forall u buffer,
    all_chars component_char s = true ->
    path_state u buffer s = end_segment u (buffer +:+ s) false /\
    forall rest,
      path_state u buffer (s +:+ String "/" rest)
      = path_state (end_segment u (buffer +:+ s) true) "" rest.
Proof.
  induction s as [|c s IH]; intros u buffer H.
  - rewrite append_empty_r. by split.
  - change (component_char c && all_chars component_char s = true) in H.
    apply andb_prop in H as [Hc Hs].
    destruct (component_char_is_inert c Hc)
      as (_ & Hslash & Hbackslash & Hquery & Hfragment & Hset).
    assert (buffer +:+ String c s = (buffer +:+ String c "") +:+ s) as ->
        by by rewrite append_assoc.
    destruct (IH u (buffer +:+ String c "") Hs) as [Hend Hgoes].
    assert (forall t, path_state u buffer (String c t)
                      = path_state u (buffer +:+ String c "") t) as Hstep.
    { intros t. cbn [path_state]. rewrite Hslash, Hbackslash, Hquery, Hfragment.
      rewrite andb_false_r. cbn [orb]. unfold percent_encode.
      by rewrite encode_cons, Hset. }
    split; [by rewrite Hstep|].
    intros rest. by rewrite append_cons, Hstep.
Qed.

Variable b : url.
Hypothesis b_is_web : url_scheme b = "http" \/ url_scheme b = "https".
Hypothesis b_has_segments : has_opaque_path b = false.

(** [/cloaked/] followed by one segment of such characters, which is no
    dot segment, parses against a web URL to that path on the same site,
    with no query and no fragment. *)
Lemma cloaked_parse (segment : string) :
  all_chars component_char segment = true ->
  single_dot segment = false -> double_dot segment = false ->
  exists u,
    basic_URL_parse unicode_ToASCII ("/cloaked/" +:+ segment) (Some b) = Some u /\
    same_site b u /\
    path_serialise u = "/cloaked/" +:+ segment /\
    url_query u = None /\ url_fragment u = None.
Proof.
  intros Hchars Hsingle Hdouble.
  set (u0 := copy_authority (blank (url_scheme b)) b).
  exists (append_segment (append_segment u0 "cloaked") segment).
  split; [|split; [by repeat split|split; [|by split]]].
  - unfold basic_URL_parse.
    change ("/cloaked/" +:+ segment) with (String "/" ("cloaked/" +:+ segment)).
    rewrite (preprocess_cons "/" _ eq_refl).
    rewrite (tidy ("cloaked/" +:+ segment)).
    2:{ rewrite all_chars_append. apply andb_true_intro. split; [reflexivity|].
        apply (all_chars_impl component_char); [|exact Hchars].
        intros c Hc. by destruct (component_char_is_inert c Hc) as [-> _]. }
    change (scheme_start_state (String "/" ("cloaked/" +:+ segment))) with (@None (string * string)).
    unfold no_scheme_state.
    rewrite b_has_segments, (web_is_not_file b b_is_web). cbn [negb].
    change (relative_state unicode_ToASCII b (String "/" ("cloaked/" +:+ segment)))
      with (relative_slash_state unicode_ToASCII b (blank (url_scheme b))
                                 ("cloaked/" +:+ segment)).
    change ("cloaked/" +:+ segment) with (String "c" ("loaked/" +:+ segment)).
    cbn [relative_slash_state].
    change (ch "c" "/") with false. change (ch "c" "\") with false.
    rewrite andb_false_r.
    fold u0. f_equal.
    change (String "c" ("loaked/" +:+ segment)) with ("cloaked" +:+ String "/" segment).
    destruct (path_state_copies "cloaked" u0 "" eq_refl) as [_ ->].
    change (end_segment u0 ("" +:+ "cloaked") true) with (append_segment u0 "cloaked").
    destruct (path_state_copies segment (append_segment u0 "cloaked") "" Hchars) as [-> _].
    rewrite append_empty_l. unfold end_segment. rewrite Hsingle, Hdouble.
    by destruct segment as [|? [|? [|]]].
  - unfold path_serialise. cbn. by rewrite append_empty_r.
Qed.

End ParserOnCloakedPath.

(** The encoded form of an address that starts with [h] is no dot
    segment. *)
Lemma encoded_h_is_no_dot_segment (s : string) :
  WHATWG.single_dot (JS.encodeURIComponent (String "h" s)) = false /\
  WHATWG.double_dot (JS.encodeURIComponent (String "h" s)) = false.
Proof. split; reflexivity. Qed.

Section CloakedDestination.

Variable unicode_ToASCII : string -> option string.

(** A validated address is the serialisation of a web URL. *)
Lemma validated_is_serialised (request : NextRequest) (data_url : option JSON)
      (redirectUrl : string) :
  validate (WHATWG.new_URL unicode_ToASCII) request data_url = inr redirectUrl ->
  exists v, redirectUrl = WHATWG.serialise v /\
            (WHATWG.url_scheme v = "http" \/ WHATWG.url_scheme v = "https").
Proof.
  intros H. apply validate_inr in H as (validated & Hvalidates & ->).
  assert (exists input base,
             WHATWG.new_URL unicode_ToASCII input base = Some validated /\
             (protocol validated = "http:" \/ protocol validated = "https:"))
    as (input & base & Hparsed & Hweb).
  { destruct Hvalidates as [Hparsed Hweb|_ Hparsed Hhttps]; eauto. }
  apply new_URL_record in Hparsed as (v & -> & _).
  exists v. split; [reflexivity|].
  destruct Hweb as [H|H]; [left|right]; by apply append_colon_inj.
Qed.

(** X19. On a request with an [http] or [https] URL, the rewrite of a
    cloaked link cannot throw: whatever address passed validation,
    [new URL] accepts [/cloaked/] followed by its encoded form, and the
    destination has the origin of the request, that very path, no query and
    no fragment. The eligibility filter skips such a path, so the rewritten
    request is not resolved again. *)
Theorem cloaked_link_is_served_from_the_site
        (request : NextRequest) (requested : URL) (data_url : option JSON)
        (redirectUrl : string) :
  WHATWG.new_URL unicode_ToASCII (url request) None = Some requested ->
  protocol requested = "http:" \/ protocol requested = "https:" ->
  validate (WHATWG.new_URL unicode_ToASCII) request data_url = inr redirectUrl ->
  exists destination,
    WHATWG.new_URL unicode_ToASCII ("/cloaked/" +:+ JS.encodeURIComponent redirectUrl)
                   (Some (url request))
    = Some destination /\
    origin destination = origin requested /\
    pathname destination = "/cloaked/" +:+ JS.encodeURIComponent redirectUrl /\
    search destination = "" /\
    hash destination = "" /\
    shouldSkip (pathname destination) = true.
Proof.
  intros Hrequested Hweb Hvalidated.
  destruct (requested_record unicode_ToASCII request requested Hrequested Hweb)
    as (b & Hb & -> & Hscheme & Hsegments).
  destruct (validated_is_serialised request data_url redirectUrl Hvalidated)
    as (v & -> & Hv).
  assert (exists s, WHATWG.serialise v = String "h" s) as [s Hs].
  { unfold WHATWG.serialise. destruct Hv as [-> | ->]; eexists; reflexivity. }
  rewrite Hs. destruct (encoded_h_is_no_dot_segment s) as [Hsingle Hdouble].
  destruct (cloaked_parse unicode_ToASCII b Hscheme Hsegments
              (JS.encodeURIComponent (String "h" s))
              (encodeURIComponent_chars _) Hsingle Hdouble)
    as (u & Hu & Hsite & Hpath & Hquery & Hfragment).
  destruct (same_site_object unicode_ToASCII b Hscheme u Hsite) as (Horigin & _).
  exists (WHATWG.URL_of unicode_ToASCII u).
  split; [unfold WHATWG.new_URL; by rewrite Hb, Hu|].
  split; [exact Horigin|].
  cbn [WHATWG.URL_of pathname search hash]. rewrite Hpath, Hquery, Hfragment.
  repeat split.
Qed.

End CloakedDestination.

Lemma cloaked_link_is_served_from_the_site_witness :
  exists destination,
    WHATWG.new_URL Sample.unicode_ToASCII
                   ("/cloaked/" +:+ JS.encodeURIComponent "https://example.com/")
                   (Some (url Sample.request_abc))
    = Some destination /\
    origin destination = origin url_abc /\
    pathname destination = "/cloaked/" +:+ JS.encodeURIComponent "https://example.com/" /\
    search destination = "" /\
    hash destination = "" /\
    shouldSkip (pathname destination) = true.
Proof.
  apply (cloaked_link_is_served_from_the_site
           Sample.unicode_ToASCII Sample.request_abc url_abc
           (Some (JString "https://example.com"))).
  - vm_compute. reflexivity.
  - right. reflexivity.
  - vm_compute. reflexivity.
Defined.

(** ** The exported handler *)

Section HandlerFacts.

Variable new_URL : string -> option string -> option URL.
Variable createRouteMatcher : list string -> NextRequest -> bool.
Variable isBot : string -> bool.
Variable getCountryContinentCode : string -> option string.
Variable NODE_ENV : option string.
Variable auth_protect : NextRequest -> Protect.

(** X20. On a route the matcher protects, the exported handler never
    reaches the resolver: either [auth.protect()] throws and the handler
    is interrupted, or it resolves and the handler ends with [undefined],
    having parsed no URL, read no header and fetched nothing. *)
Theorem protected_route_is_never_resolved (req : NextRequest) :
  isProtectedRoute createRouteMatcher req = true ->
  (auth_protect req = protect_throws /\
   handler new_URL createRouteMatcher isBot getCountryContinentCode NODE_ENV
           auth_protect req
   = interrupted_by_protect) \/
  (auth_protect req = protect_resolves /\
   handler new_URL createRouteMatcher isBot getCountryContinentCode NODE_ENV
           auth_protect req
   = continued (Ended {| console_error := []; completion := Normal None |})).
Proof.
  intros Hprotected. unfold handler, resolveLinkAndLogAnalytics.
  rewrite Hprotected. destruct (auth_protect req); [right|left]; by split.
Qed.

End HandlerFacts.

Lemma protected_route_is_never_resolved_witness :
  handler Sample.new_URL Sample.createRouteMatcher Sample.isBot
          Sample.getCountryContinentCode None (fun _ => protect_resolves)
          request_dashboard
  = continued (Ended {| console_error := []; completion := Normal None |}).
Proof.
  destruct (protected_route_is_never_resolved
              Sample.new_URL Sample.createRouteMatcher Sample.isBot
              Sample.getCountryContinentCode None (fun _ => protect_resolves)
              request_dashboard) as [[Hthrows _]|[_ Hends]].
  - vm_compute. reflexivity.
  - discriminate Hthrows.
  - exact Hends.
Defined.
